(** * Medify (src/src/App.js): retrying fetch, booking store and search controller

    A shallow embedding of the logic part of [App.js]:
    - [fetchWithRetry]: bounded retry with exponential back-off;
    - [getBookings] / [saveBookings]: the [localStorage] booking store,
      together with the [JSON.stringify] / [JSON.parse] pair it relies on;
    - the [App] component's search controller ([fetchStates],
      [fetchCities], [handleSearch]) and booking handlers ([handleBook],
      [handleCancelBooking]) as a step function over the component state.

    JavaScript values that cross the JSON boundary are modelled by [json].
    Numbers are integers ([Z]); floating point values (fractions,
    exponents, NaN) are not modelled.  Strings are byte strings. *)

From Stdlib Require Import String Ascii ZArith List Bool Lia Decimal DecimalZ DecimalPos
  Sorting.Permutation Sorting.Sorted.
Import ListNotations.
Open Scope string_scope.
Set Warnings "-register-all".

(* ------------------------------------------------------------------ *)
(** ** JSON values *)

Inductive json : Type :=
| JNull : json
| JBool (b : bool) : json
| JNum (n : Z) : json
| JStr (s : string) : json
| JArr (l : list json) : json
| JObj (m : list (string * json)) : json.

(** Structural induction through the nested lists. *)
Section json_ind_nested.
Variable P : json -> Prop.
Hypothesis HNull : P JNull.
Hypothesis HBool : forall b, P (JBool b).
Hypothesis HNum : forall n, P (JNum n).
Hypothesis HStr : forall s, P (JStr s).
Hypothesis HArr : forall l, Forall P l -> P (JArr l).
Hypothesis HObj : forall m, Forall (fun kv => P (snd kv)) m -> P (JObj m).

Fixpoint json_ind_nested (v : json) : P v :=
  match v with
  | JNull => HNull
  | JBool b => HBool b
  | JNum n => HNum n
  | JStr s => HStr s
  | JArr l =>
      HArr l ((fix go (l : list json) : Forall P l :=
                 match l with
                 | [] => Forall_nil _
                 | x :: r => Forall_cons _ (json_ind_nested x) (go r)
                 end) l)
  | JObj m =>
      HObj m ((fix go (m : list (string * json)) :
                  Forall (fun kv => P (snd kv)) m :=
                 match m with
                 | [] => Forall_nil _
                 | kv :: r => Forall_cons _ (json_ind_nested (snd kv)) (go r)
                 end) m)
  end.
End json_ind_nested.

(* ------------------------------------------------------------------ *)
(** ** Characters *)

Definition dquote : ascii := "034"%char.
Definition bslash : ascii := "092"%char.

Definition is_ws (c : ascii) : bool :=
  let n := nat_of_ascii c in
  (Nat.eqb n 32) || (Nat.eqb n 9) || (Nat.eqb n 10) || (Nat.eqb n 13).

Definition hex_digit (n : nat) : ascii :=
  if Nat.ltb n 10 then ascii_of_nat (48 + n) else ascii_of_nat (87 + n).

Definition hex_value (c : ascii) : option nat :=
  let n := nat_of_ascii c in
  if (Nat.leb 48 n) && (Nat.leb n 57) then Some (n - 48)
  else if (Nat.leb 97 n) && (Nat.leb n 102) then Some (n - 87)
  else if (Nat.leb 65 n) && (Nat.leb n 70) then Some (n - 55)
  else None.

Definition digit_value (c : ascii) : option nat :=
  let n := nat_of_ascii c in
  if (Nat.leb 48 n) && (Nat.leb n 57) then Some (n - 48) else None.

(* ------------------------------------------------------------------ *)
(** ** [JSON.stringify] *)

(** QuoteJSONString, one code unit: the short escapes, [\u00XX] for the
    other control characters, the character itself otherwise. *)
Definition escape_char (c : ascii) : string :=
  let n := nat_of_ascii c in
  if Nat.eqb n 34 then String bslash (String dquote EmptyString)
  else if Nat.eqb n 92 then String bslash (String bslash EmptyString)
  else if Nat.eqb n 8 then String bslash "b"
  else if Nat.eqb n 12 then String bslash "f"
  else if Nat.eqb n 10 then String bslash "n"
  else if Nat.eqb n 13 then String bslash "r"
  else if Nat.eqb n 9 then String bslash "t"
  else if Nat.ltb n 32 then
    String bslash (String "u" (String "0" (String "0"
      (String (hex_digit (n / 16)) (String (hex_digit (n mod 16)) EmptyString)))))
  else String c EmptyString.

Fixpoint escape_string (s : string) : string :=
  match s with
  | EmptyString => EmptyString
  | String c r => escape_char c ++ escape_string r
  end.

Definition quote (s : string) : string :=
  String dquote (escape_string s ++ String dquote EmptyString).

Fixpoint uint_str (d : uint) : string :=
  match d with
  | Nil => EmptyString
  | D0 d => String "0" (uint_str d)
  | D1 d => String "1" (uint_str d)
  | D2 d => String "2" (uint_str d)
  | D3 d => String "3" (uint_str d)
  | D4 d => String "4" (uint_str d)
  | D5 d => String "5" (uint_str d)
  | D6 d => String "6" (uint_str d)
  | D7 d => String "7" (uint_str d)
  | D8 d => String "8" (uint_str d)
  | D9 d => String "9" (uint_str d)
  end.

(** Number::toString on integers. *)
Definition num_str (n : Z) : string :=
  match Z.to_int n with
  | Decimal.Pos d => uint_str d
  | Decimal.Neg d => String "-" (uint_str d)
  end.

Fixpoint stringify (v : json) : string :=
  match v with
  | JNull => "null"
  | JBool true => "true"
  | JBool false => "false"
  | JNum n => num_str n
  | JStr s => quote s
  | JArr [] => "[]"
  | JArr (x :: r) =>
      "[" ++ stringify x
          ++ (fix go (l : list json) : string :=
                match l with
                | [] => "]"
                | y :: l' => "," ++ stringify y ++ go l'
                end) r
  | JObj [] => "{}"
  | JObj ((k, x) :: r) =>
      "{" ++ quote k ++ ":" ++ stringify x
          ++ (fix go (m : list (string * json)) : string :=
                match m with
                | [] => "}"
                | (k', y) :: m' => "," ++ quote k' ++ ":" ++ stringify y ++ go m'
                end) r
  end.

(* ------------------------------------------------------------------ *)
(** ** [JSON.parse]

    A parser for the JSON grammar restricted to the values above: the
    literals, integers, strings (escapes [\uXXXX] only below 0x100, the
    byte range), arrays and objects, with white space between tokens.
    A [SyntaxError] is [None].  Recursion is bounded by a fuel argument;
    [JSON_parse] gives one unit per input character. *)

Fixpoint skip_ws (s : string) : string :=
  match s with
  | String c r => if is_ws c then skip_ws r else s
  | EmptyString => EmptyString
  end.

Fixpoint strip_prefix (p s : string) : option string :=
  match p, s with
  | EmptyString, _ => Some s
  | String a p', String b s' => if Ascii.eqb a b then strip_prefix p' s' else None
  | String _ _, EmptyString => None
  end.

Definition unescape (e : ascii) : option ascii :=
  let n := nat_of_ascii e in
  if Nat.eqb n 34 then Some dquote
  else if Nat.eqb n 92 then Some bslash
  else if Nat.eqb n 47 then Some "/"%char
  else if Nat.eqb n 98 then Some (ascii_of_nat 8)
  else if Nat.eqb n 102 then Some (ascii_of_nat 12)
  else if Nat.eqb n 110 then Some (ascii_of_nat 10)
  else if Nat.eqb n 114 then Some (ascii_of_nat 13)
  else if Nat.eqb n 116 then Some (ascii_of_nat 9)
  else None.

(** The body of a string literal, after its opening quote. *)
Fixpoint parse_str_body (s : string) : option (string * string) :=
  match s with
  | EmptyString => None
  | String c r =>
      if Ascii.eqb c dquote then Some (EmptyString, r)
      else if Ascii.eqb c bslash then
        match r with
        | String "u" (String h1 (String h2 (String h3 (String h4 r')))) =>
            match hex_value h1, hex_value h2, hex_value h3, hex_value h4 with
            | Some a, Some b, Some c', Some d =>
                let code := ((a * 16 + b) * 16 + c') * 16 + d in
                if Nat.ltb code 256 then
                  match parse_str_body r' with
                  | Some (t, r'') => Some (String (ascii_of_nat code) t, r'')
                  | None => None
                  end
                else None
            | _, _, _, _ => None
            end
        | String e r' =>
            match unescape e with
            | Some c' =>
                match parse_str_body r' with
                | Some (t, r'') => Some (String c' t, r'')
                | None => None
                end
            | None => None
            end
        | EmptyString => None
        end
      else if Nat.ltb (nat_of_ascii c) 32 then None
      else
        match parse_str_body r with
        | Some (t, r') => Some (String c t, r')
        | None => None
        end
  end.

Fixpoint read_digits (s : string) : uint * string :=
  match s with
  | String c r =>
      match digit_value c with
      | Some k =>
          let (d, r') := read_digits r in
          (match k with
           | 0 => D0 d | 1 => D1 d | 2 => D2 d | 3 => D3 d | 4 => D4 d
           | 5 => D5 d | 6 => D6 d | 7 => D7 d | 8 => D8 d | _ => D9 d
           end, r')
      | None => (Nil, s)
      end
  | EmptyString => (Nil, EmptyString)
  end.

Definition parse_number (neg : bool) (s : string) : option (json * string) :=
  match read_digits s with
  | (Nil, _) => None
  | (d, r) => Some (JNum (Z.of_int (if neg then Decimal.Neg d else Decimal.Pos d)), r)
  end.

Fixpoint parse_value (fuel : nat) (s : string) : option (json * string) :=
  match fuel with
  | O => None
  | S f =>
      match skip_ws s with
      | EmptyString => None
      | String c r =>
          if Ascii.eqb c "n" then
            match strip_prefix "ull" r with Some r' => Some (JNull, r') | None => None end
          else if Ascii.eqb c "t" then
            match strip_prefix "rue" r with Some r' => Some (JBool true, r') | None => None end
          else if Ascii.eqb c "f" then
            match strip_prefix "alse" r with Some r' => Some (JBool false, r') | None => None end
          else if Ascii.eqb c dquote then
            match parse_str_body r with Some (t, r') => Some (JStr t, r') | None => None end
          else if Ascii.eqb c "-" then parse_number true r
          else if Ascii.eqb c "[" then
            match skip_ws r with
            | String "]" r' => Some (JArr [], r')
            | _ =>
                match parse_elems f r with
                | Some (l, r') => Some (JArr l, r')
                | None => None
                end
            end
          else if Ascii.eqb c "{" then
            match skip_ws r with
            | String "}" r' => Some (JObj [], r')
            | _ =>
                match parse_members f r with
                | Some (m, r') => Some (JObj m, r')
                | None => None
                end
            end
          else
            match digit_value c with
            | Some _ => parse_number false (String c r)
            | None => None
            end
      end
  end
with parse_elems (fuel : nat) (s : string) : option (list json * string) :=
  match fuel with
  | O => None
  | S f =>
      match parse_value f s with
      | None => None
      | Some (v, r) =>
          match skip_ws r with
          | String "," r' =>
              match parse_elems f r' with
              | Some (l, r'') => Some (v :: l, r'')
              | None => None
              end
          | String "]" r' => Some ([v], r')
          | _ => None
          end
      end
  end
with parse_members (fuel : nat) (s : string) : option (list (string * json) * string) :=
  match fuel with
  | O => None
  | S f =>
      match skip_ws s with
      | String c r =>
          if Ascii.eqb c dquote then
            match parse_str_body r with
            | None => None
            | Some (k, r1) =>
                match skip_ws r1 with
                | String ":" r2 =>
                    match parse_value f r2 with
                    | None => None
                    | Some (v, r3) =>
                        match skip_ws r3 with
                        | String "," r4 =>
                            match parse_members f r4 with
                            | Some (m, r5) => Some ((k, v) :: m, r5)
                            | None => None
                            end
                        | String "}" r4 => Some ([(k, v)], r4)
                        | _ => None
                        end
                    end
                | _ => None
                end
            end
          else None
      | EmptyString => None
      end
  end.

(** [JSON.parse]: one value, then only white space. *)
Definition JSON_parse (s : string) : option json :=
  match parse_value (S (String.length s)) s with
  | Some (v, r) =>
      match skip_ws r with
      | EmptyString => Some v
      | String _ _ => None
      end
  | None => None
  end.

(** Fuel a value needs: one unit per value, per array element and per
    object member. *)
Fixpoint json_size (v : json) : nat :=
  match v with
  | JArr l =>
      S ((fix go (l : list json) : nat :=
            match l with
            | [] => 0
            | x :: r => S (json_size x + go r)
            end) l)
  | JObj m =>
      S ((fix go (m : list (string * json)) : nat :=
            match m with
            | [] => 0
            | (_, x) :: r => S (json_size x + go r)
            end) m)
  | _ => 1
  end.

Definition elems_tail : list json -> string :=
  fix go (l : list json) : string :=
    match l with
    | [] => "]"
    | y :: l' => "," ++ stringify y ++ go l'
    end.

Definition members_tail : list (string * json) -> string :=
  fix go (m : list (string * json)) : string :=
    match m with
    | [] => "}"
    | (k', y) :: m' => "," ++ quote k' ++ ":" ++ stringify y ++ go m'
    end.

Definition elems_size : list json -> nat :=
  fix go (l : list json) : nat :=
    match l with
    | [] => 0
    | x :: r => S (json_size x + go r)
    end.

Definition members_size : list (string * json) -> nat :=
  fix go (m : list (string * json)) : nat :=
    match m with
    | [] => 0
    | (_, x) :: r => S (json_size x + go r)
    end.

(* ------------------------------------------------------------------ *)
(** ** JavaScript completions and errors *)

Inductive js_error : Type :=
| SecurityError          (* storage access denied *)
| QuotaExceededError     (* storage full *)
| SyntaxError            (* JSON.parse / Response.json on malformed text *)
| TypeError              (* property access on null/undefined, missing method *)
| HttpError (status : Z) (* thrown by fetchWithRetry on a non-ok response *)
| NetworkError.          (* fetch rejects *)

(** The completion of a JavaScript expression: a value or a thrown error. *)
Inductive completion (A : Type) : Type :=
| Normal (a : A) : completion A
| Throw (e : js_error) : completion A.
Arguments Normal {A} a.
Arguments Throw {A} e.

(* ------------------------------------------------------------------ *)
(** ** [localStorage]

    One origin's storage area: its items, whether the page may access it
    at all, and its quota in characters (keys and values counted). *)

Record storage : Type := mkStorage {
  items : list (string * string);
  accessible : bool;
  quota : nat
}.

Fixpoint assoc_get (k : string) (l : list (string * string)) : option string :=
  match l with
  | [] => None
  | (k', v) :: r => if String.eqb k k' then Some v else assoc_get k r
  end.

Fixpoint assoc_set (k v : string) (l : list (string * string)) : list (string * string) :=
  match l with
  | [] => [(k, v)]
  | (k', v') :: r => if String.eqb k k' then (k, v) :: r else (k', v') :: assoc_set k v r
  end.

Definition used (l : list (string * string)) : nat :=
  fold_right (fun kv n => String.length (fst kv) + String.length (snd kv) + n) 0 l.

Definition getItem (st : storage) (k : string) : completion (option string) :=
  if accessible st then Normal (assoc_get k (items st)) else Throw SecurityError.

Definition setItem (st : storage) (k v : string) : completion storage :=
  if negb (accessible st) then Throw SecurityError
  else
    let l := assoc_set k v (items st) in
    if Nat.ltb (quota st) (used l) then Throw QuotaExceededError
    else Normal (mkStorage l (accessible st) (quota st)).

(** Truthiness of [localStorage.getItem]'s result: [null] and [''] are falsy. *)
Definition truthy_item (o : option string) : bool :=
  match o with
  | None => false
  | Some s => negb (String.eqb s EmptyString)
  end.

(** [getBookings] (App.js, lines 23-31). *)
Definition getBookings (st : storage) : completion json :=
  let body : completion json :=
    match getItem st "bookings" with
    | Throw e => Throw e
    | Normal stored =>
        if truthy_item stored then
          match stored with
          | Some s =>
              match JSON_parse s with
              | Some v => Normal v
              | None => Throw SyntaxError
              end
          | None => Normal (JArr [])
          end
        else Normal (JArr [])
    end in
  match body with
  | Normal v => Normal v
  | Throw _ => (* console.error("Error retrieving bookings:", error) *) Normal (JArr [])
  end.

(** [saveBookings] (App.js, lines 33-39): the storage afterwards and the
    completion of the call. *)
Definition saveBookings (st : storage) (bookings : json) : storage * completion unit :=
  match setItem st "bookings" (stringify bookings) with
  | Normal st' => (st', Normal tt)
  | Throw _ => (* console.error("Error saving bookings:", error) *) (st, Normal tt)
  end.

(* ------------------------------------------------------------------ *)
(** ** [fetchWithRetry] (App.js, lines 8-21)

    The server's behaviour for the URL is a script [net]: [net k] is what
    the [k]-th call of [fetch] (counted from 0) yields.  [Transport e]:
    the [fetch] promise rejects; [Resp ok status body]: a response whose
    [json()] parses [body].  The trace records the number of [fetch]
    calls and the back-off delays (milliseconds) awaited. *)

Inductive response : Type :=
| Transport (e : js_error)
| Resp (ok : bool) (status : Z) (body : string).

Record ftrace : Type := mkTrace {
  attempts : nat;
  delays : list Z
}.

(** The outcome of the async function: its promise resolves to a value,
    rejects with an error, or resolves to [undefined] when the loop ends
    without returning. *)
Inductive fresult : Type :=
| FReturn (v : json)
| FThrow (e : js_error)
| FUndefined.

(** The [try] block of one iteration: [await fetch], the [ok] check and
    [await response.json()]. *)
Definition attempt_result (r : response) : completion json :=
  match r with
  | Transport e => Throw e
  | Resp ok status body =>
      if negb ok then Throw (HttpError status)
      else match JSON_parse body with
           | Some v => Normal v
           | None => Throw SyntaxError
           end
  end.

(** [for (let i = 0; i < retries; i++)]; [fuel] bounds the iterations and
    is never the reason the loop stops when started at [Z.to_nat retries + 1]. *)
Fixpoint fwr_loop (net : nat -> response) (retries : Z) (fuel : nat) (i : Z)
         (tr : ftrace) : fresult * ftrace :=
  match fuel with
  | O => (FUndefined, tr)
  | S fuel' =>
      if Z.ltb i retries then
        let tr1 := mkTrace (S (attempts tr)) (delays tr) in
        match attempt_result (net (attempts tr)) with
        | Normal v => (FReturn v, tr1)
        | Throw e =>
            if Z.eqb i (retries - 1)%Z then (FThrow e, tr1)
            else
              let delay := (2 ^ i * 1000)%Z in
              (* console.warn(...); await new Promise(setTimeout(resolve, delay)) *)
              fwr_loop net retries fuel' (i + 1)%Z (mkTrace (attempts tr1) (List.app (delays tr) [delay]))
        end
      else (FUndefined, tr)
  end.

Definition fetchWithRetry (net : nat -> response) (retries : Z) : fresult * ftrace :=
  fwr_loop net retries (S (Z.to_nat retries)) 0%Z (mkTrace 0 []).

(** The call sites use the default budget [retries = 3]. *)
Definition default_retries : Z := 3.

(* ------------------------------------------------------------------ *)
(** ** JavaScript values inside the component *)

(** A value read out of a parsed JSON value: [undefined] or JSON data. *)
Inductive jsval : Type :=
| JSUndefined
| JSValue (v : json).

(** [o[k]] on a parsed value: objects look the key up (a duplicated key of
    the text holds its last value), [null] throws, the other primitives
    and arrays have no such own property. *)
Fixpoint obj_get (k : string) (m : list (string * json)) : option json :=
  match m with
  | [] => None
  | (k', v) :: r =>
      match obj_get k r with
      | Some w => Some w
      | None => if String.eqb k k' then Some v else None
      end
  end.

Definition get_prop (o : json) (k : string) : completion jsval :=
  match o with
  | JNull => Throw TypeError
  | JObj m => Normal (match obj_get k m with Some v => JSValue v | None => JSUndefined end)
  | _ => Normal JSUndefined
  end.

Definition truthy (v : jsval) : bool :=
  match v with
  | JSUndefined => false
  | JSValue JNull => false
  | JSValue (JBool b) => b
  | JSValue (JNum n) => negb (Z.eqb n 0)
  | JSValue (JStr s) => negb (String.eqb s EmptyString)
  | JSValue (JArr _) => true
  | JSValue (JObj _) => true
  end.

(** [x || ''] *)
Definition or_empty (v : jsval) : json :=
  if truthy v then match v with JSValue w => w | JSUndefined => JStr EmptyString end
  else JStr EmptyString.

(** ToString, as used by the default comparator of [Array.prototype.sort]. *)
Fixpoint js_to_string (v : json) : string :=
  match v with
  | JNull => "null"
  | JBool true => "true"
  | JBool false => "false"
  | JNum n => num_str n
  | JStr s => s
  | JArr l =>
      (fix go (first : bool) (l : list json) : string :=
         match l with
         | [] => EmptyString
         | x :: r =>
             (if first then EmptyString else ",")
               ++ (match x with JNull => EmptyString | _ => js_to_string x end)
               ++ go false r
         end) true l
  | JObj _ => "[object Object]"
  end.

(** Comparison of strings by code units. *)
Fixpoint str_ltb (a b : string) : bool :=
  match a, b with
  | EmptyString, String _ _ => true
  | String _ _, EmptyString => false
  | EmptyString, EmptyString => false
  | String x a', String y b' =>
      let n := nat_of_ascii x in
      let m := nat_of_ascii y in
      if Nat.ltb n m then true else if Nat.ltb m n then false else str_ltb a' b'
  end.

(** Stable insertion: [x] goes after every element not greater than it. *)
Fixpoint insert_sorted (x : json) (l : list json) : list json :=
  match l with
  | [] => [x]
  | y :: r => if str_ltb (js_to_string x) (js_to_string y) then x :: y :: r else y :: insert_sorted x r
  end.

(** [Array.prototype.sort()] without comparator on defined elements. *)
Definition js_sort (l : list json) : list json :=
  fold_left (fun acc x => insert_sorted x acc) l [].

(** The same on elements that may be [undefined]: those go last. *)
Definition js_sort_vals (l : list jsval) : list jsval :=
  let defined := flat_map (fun v => match v with JSValue w => [w] | JSUndefined => [] end) l in
  let undef := filter (fun v => match v with JSUndefined => true | _ => false end) l in
  map JSValue (js_sort defined) ++ undef.

(** [Array.prototype.map] with a callback that may throw. *)
Fixpoint map_c {A B : Type} (f : A -> completion B) (l : list A) : completion (list B) :=
  match l with
  | [] => Normal []
  | x :: r =>
      match f x with
      | Throw e => Throw e
      | Normal y =>
          match map_c f r with
          | Throw e => Throw e
          | Normal ys => Normal (y :: ys)
          end
      end
  end.

(** The value an [await fetchWithRetry(url)] produces: a rejection
    throws at the [await]; [undefined] flows on as a value. *)
Definition awaited (r : fresult) : completion jsval :=
  match r with
  | FReturn v => Normal (JSValue v)
  | FThrow e => Throw e
  | FUndefined => Normal JSUndefined
  end.

(** [data.map(...)] / [data.sort()] need an array; [undefined] and [null]
    throw on the property access, other values have no such method. *)
Definition as_array (v : jsval) : completion (list json) :=
  match v with
  | JSValue (JArr l) => Normal l
  | _ => Throw TypeError
  end.

(* ------------------------------------------------------------------ *)
(** ** The three fetch stages' continuations (after the [await]) *)

(** [fetchStates]: [setStates(data.map(item => item.state).sort())]. *)
Definition states_of (r : fresult) : completion (list jsval) :=
  match awaited r with
  | Throw e => Throw e
  | Normal data =>
      match as_array data with
      | Throw e => Throw e
      | Normal l =>
          match map_c (fun item => get_prop item "state") l with
          | Throw e => Throw e
          | Normal vs => Normal (js_sort_vals vs)
          end
      end
  end.

(** [fetchCities]: [setCities(data.sort())]. *)
Definition cities_of (r : fresult) : completion (list json) :=
  match awaited r with
  | Throw e => Throw e
  | Normal data =>
      match as_array data with
      | Throw e => Throw e
      | Normal l => Normal (js_sort l)
      end
  end.

Definition hospital_fields : list string :=
  ["Hospital Name"; "City"; "State"; "Hospital Type"; "Hospital overall rating"].

(** The five-field projection of [handleSearch]'s [data.map]. *)
Definition project (hospital : json) : completion json :=
  match map_c (fun k => match get_prop hospital k with
                        | Normal v => Normal (k, or_empty v)
                        | Throw e => Throw e
                        end) hospital_fields with
  | Normal m => Normal (JObj m)
  | Throw e => Throw e
  end.

(** [.filter(h => h['Hospital Name'])] on projected records. *)
Definition has_name (h : json) : bool :=
  match get_prop h "Hospital Name" with
  | Normal v => truthy v
  | Throw _ => false
  end.

(** [handleSearch]'s [try]/[catch]: the list handed to [setSearchResults]. *)
Definition search_results_of (r : fresult) : list json :=
  let body : completion (list json) :=
    match awaited r with
    | Throw e => Throw e
    | Normal data =>
        match as_array data with
        | Throw e => Throw e
        | Normal l =>
            match map_c project l with
            | Throw e => Throw e
            | Normal hs => Normal (filter has_name hs)
            end
        end
    end in
  match body with
  | Normal hs => hs
  | Throw _ => [] (* console.error; setSearchResults([]) *)
  end.

(* ------------------------------------------------------------------ *)
(** ** The [App] component

    The component's state hooks, the in-flight requests of the three
    stages, and the storage.  One [step] processes one event to the end of
    its synchronous part: the state updates it enqueues, the re-render and
    the effects that re-render triggers, up to their first [await].  The
    continuation of an async stage runs at its own [Settle] event. *)

Record loading : Type := mkLoading {
  ld_states : bool;
  ld_cities : bool;
  ld_hospitals : bool
}.

(** A started stage, with the selection captured in its URL. *)
Inductive stage : Type :=
| StStates
| StCities (st : string)
| StHospitals (st city : string).

Record app : Type := mkApp {
  states : list jsval;
  cities : list json;
  selectedState : option string;
  selectedCity : option string;
  searchResults : list json;
  bookings : json;
  isLoading : loading;
  inflight : list (nat * stage);
  next_req : nat;
  store : storage
}.

Inductive event : Type :=
| Mount                                   (* the [fetchStates] effect, on mount *)
| SelectState (v : option string)         (* [setSelectedState] *)
| SelectCity (v : option string)          (* [setSelectedCity] *)
| ClickSearch                             (* the search button *)
| Settle (rid : nat) (net : nat -> response) (* request [rid]'s fetchWithRetry settles *)
| Book (b : json)                         (* [handleBook] *)
| CancelBooking (index : Z).              (* [handleCancelBooking] *)

(** [!x] on the selection hooks: [null] and [''] are falsy. *)
Definition sel_truthy (o : option string) : bool :=
  match o with
  | None => false
  | Some s => negb (String.eqb s EmptyString)
  end.

Definition opt_str_eqb (a b : option string) : bool :=
  match a, b with
  | None, None => true
  | Some x, Some y => String.eqb x y
  | _, _ => false
  end.

Fixpoint find_req (rid : nat) (l : list (nat * stage)) : option stage :=
  match l with
  | [] => None
  | (r, s) :: l' => if Nat.eqb r rid then Some s else find_req rid l'
  end.

Fixpoint remove_req (rid : nat) (l : list (nat * stage)) : list (nat * stage) :=
  match l with
  | [] => []
  | (r, s) :: l' => if Nat.eqb r rid then l' else (r, s) :: remove_req rid l'
  end.

Definition set_states a v := mkApp v (cities a) (selectedState a) (selectedCity a) (searchResults a) (bookings a) (isLoading a) (inflight a) (next_req a) (store a).
Definition set_cities a v := mkApp (states a) v (selectedState a) (selectedCity a) (searchResults a) (bookings a) (isLoading a) (inflight a) (next_req a) (store a).
Definition set_selectedState a v := mkApp (states a) (cities a) v (selectedCity a) (searchResults a) (bookings a) (isLoading a) (inflight a) (next_req a) (store a).
Definition set_selectedCity a v := mkApp (states a) (cities a) (selectedState a) v (searchResults a) (bookings a) (isLoading a) (inflight a) (next_req a) (store a).
Definition set_searchResults a v := mkApp (states a) (cities a) (selectedState a) (selectedCity a) v (bookings a) (isLoading a) (inflight a) (next_req a) (store a).
Definition set_bookings a v := mkApp (states a) (cities a) (selectedState a) (selectedCity a) (searchResults a) v (isLoading a) (inflight a) (next_req a) (store a).
Definition set_isLoading a v := mkApp (states a) (cities a) (selectedState a) (selectedCity a) (searchResults a) (bookings a) v (inflight a) (next_req a) (store a).
Definition set_inflight a v := mkApp (states a) (cities a) (selectedState a) (selectedCity a) (searchResults a) (bookings a) (isLoading a) v (next_req a) (store a).
Definition set_store a v := mkApp (states a) (cities a) (selectedState a) (selectedCity a) (searchResults a) (bookings a) (isLoading a) (inflight a) (next_req a) v.

(** [setIsLoading(prev => ({ ...prev, <flag>: b }))] *)
Definition set_ld_states a b :=
  set_isLoading a (mkLoading b (ld_cities (isLoading a)) (ld_hospitals (isLoading a))).
Definition set_ld_cities a b :=
  set_isLoading a (mkLoading (ld_states (isLoading a)) b (ld_hospitals (isLoading a))).
Definition set_ld_hospitals a b :=
  set_isLoading a (mkLoading (ld_states (isLoading a)) (ld_cities (isLoading a)) b).

(** Issue a request: [fetch] is called, the stage waits for it. *)
Definition start_request (a : app) (s : stage) : app :=
  mkApp (states a) (cities a) (selectedState a) (selectedCity a) (searchResults a)
        (bookings a) (isLoading a) (List.app (inflight a) [(next_req a, s)]) (S (next_req a)) (store a).

(** [fetchStates] up to its [await]. *)
Definition fetchStates_start (a : app) : app :=
  start_request (set_ld_states a true) StStates.

(** The [selectedState] effect (App.js, lines 540-565). *)
Definition selectedState_effect (a : app) : app :=
  match selectedState a with
  | Some s =>
      if sel_truthy (Some s) then
        (* fetchCities up to its await *)
        let a1 := set_ld_cities a true in
        let a2 := set_cities a1 [] in
        let a3 := set_selectedCity a2 None in
        let a4 := set_searchResults a3 [] in
        start_request a4 (StCities s)
      else set_searchResults (set_selectedCity (set_cities a []) None) []
  | None => set_searchResults (set_selectedCity (set_cities a []) None) []
  end.

(** [handleSearch] up to its [await] (App.js, lines 567-591). *)
Definition handleSearch_start (a : app) : app :=
  match selectedState a, selectedCity a with
  | Some s, Some c =>
      if sel_truthy (Some s) && sel_truthy (Some c) then
        let a1 := set_ld_hospitals a true in
        let a2 := set_searchResults a1 [] in
        start_request a2 (StHospitals s c)
      else a
  | _, _ => a
  end.

(** The continuation of a stage once its [fetchWithRetry] settled with
    [r]: the [try] body or the [catch], then the [finally]. *)
Definition finish_stage (a : app) (s : stage) (r : fresult) : app :=
  match s with
  | StStates =>
      let a1 := match states_of r with
                | Normal v => set_states a v
                | Throw _ => a (* console.error *)
                end in
      set_ld_states a1 false
  | StCities _ =>
      let a1 := match cities_of r with
                | Normal v => set_cities a v
                | Throw _ => a (* console.error *)
                end in
      set_ld_cities a1 false
  | StHospitals _ _ =>
      set_ld_hospitals (set_searchResults a (search_results_of r)) false
  end.

(** [[...bookings, newBooking]]: arrays and strings are iterable. *)
Definition spread_append (bs : json) (b : json) : completion (list json) :=
  match bs with
  | JArr l => Normal (List.app l [b])
  | JStr s => Normal (List.app (map (fun c => JStr (String c EmptyString)) (list_ascii_of_string s)) [b])
  | _ => Throw TypeError
  end.

(** [bookings.filter((_, i) => i !== index)] *)
Fixpoint filter_index (l : list json) (i : Z) (index : Z) : list json :=
  match l with
  | [] => []
  | x :: r => if Z.eqb i index then filter_index r (i + 1)%Z index
              else x :: filter_index r (i + 1)%Z index
  end.

(** [handleBook] (App.js, lines 601-605); an exception leaves the state. *)
Definition handleBook (a : app) (newBooking : json) : app :=
  match spread_append (bookings a) newBooking with
  | Normal updated =>
      let a1 := set_bookings a (JArr updated) in
      set_store a1 (fst (saveBookings (store a) (JArr updated)))
  | Throw _ => a
  end.

(** [handleCancelBooking] (App.js, lines 607-611). *)
Definition handleCancelBooking (a : app) (index : Z) : app :=
  match bookings a with
  | JArr l =>
      let updated := filter_index l 0 index in
      let a1 := set_bookings a (JArr updated) in
      set_store a1 (fst (saveBookings (store a) (JArr updated)))
  | _ => a (* TypeError: bookings.filter is not a function *)
  end.

Definition step (a : app) (e : event) : app :=
  match e with
  | Mount => fetchStates_start a
  | SelectState v =>
      (* React skips the re-render, hence the effect, on an equal value *)
      if opt_str_eqb v (selectedState a) then a
      else selectedState_effect (set_selectedState a v)
  | SelectCity v =>
      if opt_str_eqb v (selectedCity a) then a else set_selectedCity a v
  | ClickSearch =>
      (* disabled={!selectedState || !selectedCity || isLoading.hospitals} *)
      if negb (sel_truthy (selectedState a)) || negb (sel_truthy (selectedCity a))
         || ld_hospitals (isLoading a)
      then a
      else handleSearch_start a
  | Settle rid net =>
      match find_req rid (inflight a) with
      | Some s =>
          finish_stage (set_inflight a (remove_req rid (inflight a))) s
                       (fst (fetchWithRetry net default_retries))
      | None => a
      end
  | Book b => handleBook a b
  | CancelBooking index => handleCancelBooking a index
  end.

Definition run (a : app) (es : list event) : app := fold_left step es a.

(** The first render: [useState(getBookings)] and the initial hooks. *)
Definition init_app (st : storage) : app :=
  mkApp [] [] None None []
        (match getBookings st with Normal v => v | Throw _ => JArr [] end)
        (mkLoading false false false) [] 0 st.

(* ------------------------------------------------------------------ *)
(** ** Routing (App.js, lines 499-501, 517-523 and 613-618)

    The route hook, the URL path and the tab's session history of this
    document: the paths before the current entry (nearest first) and after
    it.  History entries of other documents are not modelled: going back
    from the first entry does nothing here. *)

(** [window.location.pathname === '/my-bookings' ? 'MyBookings' : 'Home'] *)
Definition route_of_path (p : string) : string :=
  if String.eqb p "/my-bookings" then "MyBookings" else "Home".

Record nav : Type := mkNav {
  path : string;
  back_paths : list string;
  fwd_paths : list string;
  route : string;
  mobileMenuOpen : bool
}.

(** The first render: [useState(pathname === '/my-bookings' ? ...)]. *)
Definition init_nav (p : string) : nav := mkNav p [] [] (route_of_path p) false.

(** [navigate]: [pushState] to the route's path, [setRoute],
    [setMobileMenuOpen(false)]. *)
Definition navigate (n : nav) (newRoute : string) : nav :=
  let p := if String.eqb newRoute "MyBookings" then "/my-bookings" else "/" in
  mkNav p (path n :: back_paths n) [] newRoute false.

(** The [popstate] listener, run once the browser has moved to the entry. *)
Definition handlePopState (n : nav) : nav :=
  mkNav (path n) (back_paths n) (fwd_paths n) (route_of_path (path n)) (mobileMenuOpen n).

Inductive nav_event : Type :=
| NavTo (r : string)      (* a menu button: [navigate(r)] *)
| HistoryBack             (* the browser's back button *)
| HistoryForward          (* the browser's forward button *)
| ToggleMenu.             (* [setMobileMenuOpen(!mobileMenuOpen)] *)

Definition nav_step (n : nav) (e : nav_event) : nav :=
  match e with
  | NavTo r => navigate n r
  | HistoryBack =>
      match back_paths n with
      | [] => n
      | p :: b => handlePopState (mkNav p b (path n :: fwd_paths n) (route n) (mobileMenuOpen n))
      end
  | HistoryForward =>
      match fwd_paths n with
      | [] => n
      | p :: f => handlePopState (mkNav p (path n :: back_paths n) f (route n) (mobileMenuOpen n))
      end
  | ToggleMenu => mkNav (path n) (back_paths n) (fwd_paths n) (route n) (negb (mobileMenuOpen n))
  end.

(** [<main>]: [route === 'Home' && <HomePage/>], [route === 'MyBookings' && <MyBookingsPage/>]. *)
Inductive page : Type := HomePageShown | MyBookingsPageShown | NoPageShown.

Definition rendered_page (n : nav) : page :=
  if String.eqb (route n) "Home" then HomePageShown
  else if String.eqb (route n) "MyBookings" then MyBookingsPageShown
  else NoPageShown.

(* ------------------------------------------------------------------ *)
(** ** [Dropdown] (App.js, lines 43-112)

    [toLowerCase] maps the ASCII capitals; the other bytes are left as
    they are. *)

Definition lower_ascii (c : ascii) : ascii :=
  let n := nat_of_ascii c in
  if Nat.leb 65 n && Nat.leb n 90 then ascii_of_nat (n + 32) else c.

Fixpoint toLowerCase (s : string) : string :=
  match s with
  | EmptyString => EmptyString
  | String c r => String (lower_ascii c) (toLowerCase r)
  end.

Fixpoint starts_with (p s : string) : bool :=
  match p, s with
  | EmptyString, _ => true
  | String c p', String d s' => Ascii.eqb c d && starts_with p' s'
  | String _ _, EmptyString => false
  end.

(** [s.includes(t)]: [t] occurs in [s] at some position. *)
Fixpoint includes (s t : string) : bool :=
  starts_with t s || match s with EmptyString => false | String _ s' => includes s' t end.

(** [filteredOptions] (lines 47-54). *)
Definition filteredOptions (options : list jsval) (searchTerm : string) : list jsval :=
  filter (fun option => match option with
                        | JSValue (JStr s) => includes (toLowerCase s) (toLowerCase searchTerm)
                        | _ => false
                        end) options.

Record dropdown : Type := mkDropdown {
  isOpen : bool;
  searchTerm : string;
  options : list jsval;
  dd_isLoading : bool
}.

Inductive dd_event : Type :=
| DdToggle                    (* click on the field: [setIsOpen(prev => !prev)] *)
| DdType (s : string)         (* [onChange] of the search input *)
| DdOptions (opts : list jsval) (* the parent passes a new [options] array *)
| DdLoading (b : bool)        (* the parent passes a new [isLoading] *)
| DdClickOption (k : nat).    (* click on the [k]-th listed option *)

(** One event, and the option handed to [onSelect], if any.  The search
    input and the list are rendered only while the menu is open, the list
    only when not loading; a new [options] array re-runs the effect of
    lines 56-58; [handleSelect] (lines 60-63) calls [onSelect] and closes. *)
Definition dd_step (d : dropdown) (e : dd_event) : dropdown * option jsval :=
  match e with
  | DdToggle => (mkDropdown (negb (isOpen d)) (searchTerm d) (options d) (dd_isLoading d), None)
  | DdType s =>
      if isOpen d then (mkDropdown (isOpen d) s (options d) (dd_isLoading d), None) else (d, None)
  | DdOptions opts => (mkDropdown (isOpen d) EmptyString opts (dd_isLoading d), None)
  | DdLoading b => (mkDropdown (isOpen d) (searchTerm d) (options d) b, None)
  | DdClickOption k =>
      if isOpen d && negb (dd_isLoading d) then
        match nth_error (filteredOptions (options d) (searchTerm d)) k with
        | Some o => (mkDropdown false (searchTerm d) (options d) (dd_isLoading d), Some o)
        | None => (d, None)
        end
      else (d, None)
  end.

(* ------------------------------------------------------------------ *)
(** ** [BookingModal] (App.js, lines 163-285) and the booking dialog of [App]

    Dates are milliseconds since the epoch; the local time zone is taken
    to be UTC, so [setDate(getDate() + i)] adds [i] whole days.
    [toISOString] is written out for the years 0 to 9999. *)

Definition ms_per_day : Z := 86400000.

(** The proleptic Gregorian date (year, month, day) of a day number
    counted from 1970-01-01. *)
Definition civil_from_days (days : Z) : Z * Z * Z :=
  let z := (days + 719468)%Z in
  let era := (z / 146097)%Z in
  let doe := (z - era * 146097)%Z in
  let yoe := ((doe - doe / 1460 + doe / 36524 - doe / 146096) / 365)%Z in
  let y := (yoe + era * 400)%Z in
  let doy := (doe - (365 * yoe + yoe / 4 - yoe / 100))%Z in
  let mp := ((5 * doy + 2) / 153)%Z in
  let d := (doy - (153 * mp + 2) / 5 + 1)%Z in
  let m := if Z.ltb mp 10 then (mp + 3)%Z else (mp - 9)%Z in
  ((if Z.leb m 2 then (y + 1)%Z else y), m, d).

Fixpoint zeros (n : nat) : string :=
  match n with O => EmptyString | S n' => String "0" (zeros n') end.

(** A number written with at least [w] digits. *)
Definition pad (w : nat) (n : Z) : string :=
  let s := num_str n in zeros (w - String.length s) ++ s.

(** [YYYY-MM-DD] of the UTC day of [t]. *)
Definition date_part (t : Z) : string :=
  let '(y, m, d) := civil_from_days (t / ms_per_day) in
  pad 4 y ++ "-" ++ pad 2 m ++ "-" ++ pad 2 d.

Definition toISOString (t : Z) : string :=
  let ms := (t mod ms_per_day)%Z in
  date_part t ++ "T" ++ pad 2 (ms / 3600000) ++ ":" ++ pad 2 ((ms / 60000) mod 60) ++ ":"
    ++ pad 2 ((ms / 1000) mod 60) ++ "." ++ pad 3 (ms mod 1000) ++ "Z".

(** [s.split('T')[0]] *)
Fixpoint split_T_0 (s : string) : string :=
  match s with
  | EmptyString => EmptyString
  | String c r => if Ascii.eqb c "T" then EmptyString else String c (split_T_0 r)
  end.

(** [dates] (lines 164-171): today and the six following days. *)
Definition booking_dates (today : Z) : list Z :=
  map (fun i => (today + Z.of_nat i * ms_per_day)%Z) (seq 0 7).

(** [timeSlots] (lines 176-180), in [Object.entries] order. *)
Definition timeSlots : list (string * list string) :=
  [("Morning", ["09:00 AM"; "10:00 AM"; "11:00 AM"]);
   ("Afternoon", ["01:00 PM"; "02:00 PM"; "03:00 PM"]);
   ("Evening", ["05:00 PM"; "06:00 PM"; "07:00 PM"])].

(** The modal's prop [hospital], its memoised [dates] and its two state hooks. *)
Record modal : Type := mkModal {
  m_hospital : json;
  m_dates : list Z;
  selectedDate : Z;
  selectedTimeSlot : option string
}.

(** Mounting the modal: [useState(dates[0])], [useState(null)]. *)
Definition mount_modal (h : json) (today : Z) : modal :=
  let ds := booking_dates today in mkModal h ds (nth 0 ds today) None.

(** Defining a property in an object literal: an existing key keeps its
    place and takes the new value, a new key goes last. *)
Fixpoint obj_put (k : string) (v : json) (m : list (string * json)) : list (string * json) :=
  match m with
  | [] => [(k, v)]
  | (k', v') :: r => if String.eqb k k' then (k, v) :: r else (k', v') :: obj_put k v r
  end.

Definition indexed {A : Type} (f : A -> json) (l : list A) : list (string * json) :=
  map (fun p => (num_str (Z.of_nat (fst p)), f (snd p))) (combine (seq 0 (length l)) l).

(** The own enumerable properties [{...v}] copies. *)
Definition own_entries (v : json) : list (string * json) :=
  match v with
  | JObj m => m
  | JArr l => indexed (fun x => x) l
  | JStr s => indexed (fun c => JStr (String c EmptyString)) (list_ascii_of_string s)
  | _ => []
  end.

Definition spread (v : json) : list (string * json) :=
  fold_left (fun o kv => obj_put (fst kv) (snd kv) o) (own_entries v) [].

(** [handleBook] of the modal (lines 182-192): the booking handed to
    [onBook], if the button does anything. *)
Definition BookingModal_handleBook (m : modal) : option json :=
  match selectedTimeSlot m with
  | Some slot =>
      if sel_truthy (Some slot) then
        let formattedDate := split_T_0 (toISOString (selectedDate m)) in
        Some (JObj (obj_put "bookingTime" (JStr slot)
                      (obj_put "bookingDate" (JStr formattedDate) (spread (m_hospital m)))))
      else None
  | None => None
  end.

(** [App] with its [bookingHospital] hook and the mounted modal. *)
Record ui : Type := mkUi {
  core : app;
  bookingModal : option modal
}.

Inductive ui_event : Type :=
| AppEvent (e : event)
| OpenBookingModal (k : nat) (today : Z) (* "Book FREE Center Visit" on result [k] *)
| PickDate (k : nat)
| PickTimeSlot (period k : nat)
| ConfirmBooking
| CloseBookingModal.

(** [openBookingModal] / [closeBookingModal] (lines 593-599); the modal is
    mounted when [bookingHospital] becomes truthy and keeps its state while
    it stays so; [onBook] is [App]'s [handleBook], then [onClose]. *)
Definition ui_step (u : ui) (e : ui_event) : ui :=
  match e with
  | AppEvent e' => mkUi (step (core u) e') (bookingModal u)
  | OpenBookingModal k today =>
      match nth_error (searchResults (core u)) k with
      | Some h =>
          match bookingModal u with
          | None => mkUi (core u) (Some (mount_modal h today))
          | Some m => mkUi (core u) (Some (mkModal h (m_dates m) (selectedDate m) (selectedTimeSlot m)))
          end
      | None => u
      end
  | PickDate k =>
      match bookingModal u with
      | Some m =>
          match nth_error (m_dates m) k with
          | Some d => mkUi (core u) (Some (mkModal (m_hospital m) (m_dates m) d (selectedTimeSlot m)))
          | None => u
          end
      | None => u
      end
  | PickTimeSlot p k =>
      match bookingModal u, nth_error timeSlots p with
      | Some m, Some (_, slots) =>
          match nth_error slots k with
          | Some slot => mkUi (core u) (Some (mkModal (m_hospital m) (m_dates m) (selectedDate m) (Some slot)))
          | None => u
          end
      | _, _ => u
      end
  | ConfirmBooking =>
      match bookingModal u with
      | Some m =>
          match BookingModal_handleBook m with
          | Some b => mkUi (step (core u) (Book b)) None
          | None => u
          end
      | None => u
      end
  | CloseBookingModal => mkUi (core u) None
  end.

(** A server that answers 503 twice, then 200 with [v]. *)
Definition net_ffs (v : string) : nat -> response :=
  fun k => match k with 0 | 1 => Resp false 503 EmptyString | _ => Resp true 200 v end.

(** ** Inputs and helpers for the properties *)

Definition no_digit_head (s : string) : Prop :=
  match s with String c _ => digit_value c = None | EmptyString => True end.

Definition parses_back (v : json) : Prop :=
  forall f rest, json_size v <= f -> no_digit_head rest ->
  parse_value f (stringify v ++ rest) = Some (v, rest).

(** [load()] as the claim describes it: an empty array when the slot is
    unreadable, absent, empty or malformed, the parsed stored value
    otherwise. *)
Definition load_spec (st : storage) : json :=
  match getItem st "bookings" with
  | Throw _ => JArr []
  | Normal None => JArr []
  | Normal (Some s) =>
      if String.eqb s EmptyString then JArr []
      else match JSON_parse s with
           | Some v => v
           | None => JArr []
           end
  end.

(** A storage area with a 16-character quota. *)
Definition small_storage : storage := mkStorage [] true 16.

Definition one_booking : list json :=
  [JObj [("Hospital Name", JStr "A"); ("bookingDate", JStr "2024-05-01");
         ("bookingTime", JStr "02:00 PM")]].

(** The delays awaited after the failed attempts [0 .. n-1]. *)
Definition backoffs (n : nat) : list Z := map (fun j => (2 ^ Z.of_nat j * 1000)%Z) (seq 0 n).

(** The search button is enabled. *)
Definition search_enabled (a : app) : bool :=
  sel_truthy (selectedState a) && sel_truthy (selectedCity a) && negb (ld_hospitals (isLoading a)).

(** A field of a hospital record as [hospital[k] || ''] yields it. *)
Definition field_or_empty (m : list (string * json)) (k : string) : json :=
  match obj_get k m with
  | Some v => if truthy (JSValue v) then v else JStr EmptyString
  | None => JStr EmptyString
  end.

Definition name_present (m : list (string * json)) : bool :=
  match obj_get "Hospital Name" m with
  | Some v => truthy (JSValue v)
  | None => false
  end.

Definition project_fields (m : list (string * json)) : json :=
  JObj (map (fun k => (k, field_or_empty m k)) hospital_fields).

(** A hospital rated [0]. *)
Definition rated_zero : list (string * json) :=
  [("Hospital Name", JStr "St. Mary"); ("City", JStr "Los Angeles"); ("State", JStr "California");
   ("Hospital Type", JStr "Acute Care Hospitals"); ("Hospital overall rating", JNum 0)].

(** Three states, the second one selected, its cities loaded. *)
Definition states_net : nat -> response :=
  fun _ => Resp true 200 (stringify (JArr [JObj [("state", JStr "California")];
                                           JObj [("state", JStr "Alabama")]])).

Definition cities_net : nat -> response :=
  fun _ => Resp true 200 (stringify (JArr [JStr "San Diego"; JStr "Los Angeles"])).

Definition hospitals_net : nat -> response :=
  fun _ => Resp true 200 (stringify (JArr [JObj [("Hospital Name", JStr "CEDARS");
                                                   ("City", JStr "Los Angeles");
                                                   ("State", JStr "California")]])).

(** Search for Los Angeles, then pick San Diego. *)
Definition city_change_run : app :=
  run (init_app small_storage)
      [Mount; Settle 0 states_net; SelectState (Some "California"); Settle 1 cities_net;
       SelectCity (Some "Los Angeles"); ClickSearch; Settle 2 hospitals_net;
       SelectCity (Some "San Diego")].

Definition is_selection (e : event) : bool :=
  match e with
  | SelectState _ | SelectCity _ | ClickSearch => true
  | _ => false
  end.

(** The request for Alabama's cities is still in flight when Texas is
    selected. *)
Definition race_app : app :=
  run (init_app small_storage)
      [Mount; SelectState (Some "Alabama"); SelectState (Some "Texas")].

Definition alabama_net : nat -> response :=
  fun _ => Resp true 200 (stringify (JArr [JStr "Mobile"; JStr "Birmingham"])).

(** ** Helpers for the properties of the rest of [App.js] *)

Definition not_before (x y : json) : Prop := str_ltb (js_to_string y) (js_to_string x) = false.

Definition touches_bookings (e : event) : bool :=
  match e with
  | Book _ | CancelBooking _ => true
  | _ => false
  end.

Definition search_part (a : app) :=
  (states a, cities a, selectedState a, selectedCity a, searchResults a,
   isLoading a, inflight a, next_req a).

Definition is_hospitals_stage (s : stage) : bool :=
  match s with StHospitals _ _ => true | _ => false end.

Definition hospitals_in_flight (l : list (nat * stage)) : nat :=
  length (filter is_hospitals_stage (map snd l)).

Definition shows_no_results (a : app) : bool :=
  Nat.eqb (length (searchResults a)) 0 && sel_truthy (selectedCity a)
  && sel_truthy (selectedState a) && negb (ld_hospitals (isLoading a)).


Definition one_search_inv (a : app) : Prop :=
  hospitals_in_flight (inflight a) = if ld_hospitals (isLoading a) then 1 else 0.

Definition ui_route (r : string) : bool := String.eqb r "Home" || String.eqb r "MyBookings".

Definition nav_event_of_ui (e : nav_event) : bool :=
  match e with NavTo r => ui_route r | _ => true end.

Definition route_ok (n : nav) : Prop := route n = route_of_path (path n).

Definition is_string_option (o : jsval) : bool :=
  match o with JSValue (JStr _) => true | _ => false end.

Definition no_T (s : string) : bool :=
  forallb (fun c => negb (Ascii.eqb c "T")) (list_ascii_of_string s).

Definition modal_inv (u : ui) : Prop :=
  match bookingModal u with
  | Some m =>
      (exists today, m_dates m = booking_dates today)
      /\ In (selectedDate m) (m_dates m)
      /\ (selectedTimeSlot m = None
          \/ exists s, selectedTimeSlot m = Some s /\ In s (flat_map snd timeSlots))
  | None => True
  end.

(** The record [handleSearch] keeps for the hospital of [hospitals_net]. *)
Definition cedars : list (string * json) :=
  [("Hospital Name", JStr "CEDARS"); ("City", JStr "Los Angeles"); ("State", JStr "California");
   ("Hospital Type", JStr EmptyString); ("Hospital overall rating", JStr EmptyString)].

(** The dialog opened on 2024-05-01 for the first result of
    [city_change_run], with the third date and 02:00 PM picked. *)
Definition ui_run : list ui_event := [OpenBookingModal 0 1714521600000; PickDate 2; PickTimeSlot 1 1].

Definition picked_modal : modal :=
  mkModal (JObj cedars) (booking_dates 1714521600000) 1714694400000 (Some "02:00 PM").

(* ================================================================== *)
(** * Properties *)

(** ** Executable checks of the model *)

Example JSON_parse_ex1 :
  JSON_parse " [1, -20 ,[ ] , {}, null,true ] " = Some (JArr [JNum 1; JNum (-20); JArr []; JObj []; JNull; JBool true]).
Proof. reflexivity. Qed.

Example JSON_roundtrip_ex :
  let v := JArr [JObj [("a", JNum (-12)); ("b" ++ String dquote EmptyString, JStr (String (ascii_of_nat 10) "x"))]; JNull; JBool false] in
  JSON_parse (stringify v) = Some v.
Proof. reflexivity. Qed.

Example JSON_parse_ex2 : JSON_parse "[1,]" = None.
Proof. reflexivity. Qed.


Example fwr_ex1 : fetchWithRetry (net_ffs "[1]") 3 = (FReturn (JArr [JNum 1]), mkTrace 3 [1000; 2000]%Z).
Proof. reflexivity. Qed.
Example fwr_ex2 : fetchWithRetry (net_ffs "[1]") 2 = (FThrow (HttpError 503), mkTrace 2 [1000]%Z).
Proof. reflexivity. Qed.
Example fwr_ex3 : fetchWithRetry (net_ffs "[1]") 0 = (FUndefined, mkTrace 0 []).
Proof. reflexivity. Qed.

Example store_ex :
  let B := JArr [JObj [("Hospital Name", JStr "A"); ("bookingTime", JStr "02:00 PM")]] in
  getBookings (fst (saveBookings (mkStorage [] true 5000) B)) = Normal B.
Proof. reflexivity. Qed.

Example search_ex :
  search_results_of (FReturn (JArr [JObj [("City", JStr "LA")]; JObj [("Hospital Name", JStr "H"); ("Hospital overall rating", JNum 0)]]))
  = [JObj [("Hospital Name", JStr "H"); ("City", JStr EmptyString); ("State", JStr EmptyString); ("Hospital Type", JStr EmptyString); ("Hospital overall rating", JStr EmptyString)]].
Proof. reflexivity. Qed.

Example race_ex :
  let a := run (init_app (mkStorage [] true 5000))
               [Mount; SelectState (Some "Alabama"); SelectState (Some "Texas");
                Settle 1 (fun _ => Resp true 200 (stringify (JArr [JStr "Mobile"; JStr "Ala"])))] in
  selectedState a = Some "Texas" /\ cities a = [JStr "Ala"; JStr "Mobile"].
Proof. split; reflexivity. Qed.

(** ** [JSON.parse] inverts [JSON.stringify] *)

Lemma str_app_assoc (a b c : string) : (a ++ b) ++ c = a ++ (b ++ c).
Proof. induction a as [|x a IH]; simpl; [reflexivity | now rewrite IH]. Qed.

Lemma str_app_nil_r (a : string) : a ++ EmptyString = a.
Proof. induction a as [|x a IH]; simpl; [reflexivity | now rewrite IH]. Qed.

Lemma escape_char_parse (c : ascii) (rest : string) :
  parse_str_body (escape_char c ++ rest)
  = match parse_str_body rest with Some (t, r) => Some (String c t, r) | None => None end.
Proof. destruct c as [[] [] [] [] [] [] [] []]; reflexivity. Qed.

Lemma escape_string_parse (s rest : string) :
  parse_str_body (escape_string s ++ String dquote rest) = Some (s, rest).
Proof.
  induction s as [|c s IH]; [reflexivity|].
  simpl. rewrite str_app_assoc, escape_char_parse, IH. reflexivity.
Qed.

Lemma read_digits_uint (d : uint) (rest : string) :
  no_digit_head rest -> read_digits (uint_str d ++ rest) = (d, rest).
Proof.
  intros H. induction d; simpl; try (rewrite IHd; reflexivity).
  destruct rest as [|c r]; simpl in *; [reflexivity|]. now rewrite H.
Qed.

Lemma to_int_nonnil (n : Z) :
  Z.to_int n <> Decimal.Pos Nil /\ Z.to_int n <> Decimal.Neg Nil.
Proof.
  destruct n as [|p|p]; simpl; split; try discriminate;
  intros E; injection E; apply DecimalPos.Unsigned.to_uint_nonnil.
Qed.

Lemma num_parse (n : Z) (f : nat) (rest : string) :
  no_digit_head rest -> parse_value (S f) (num_str n ++ rest) = Some (JNum n, rest).
Proof.
  intros H. pose proof (to_int_nonnil n) as [N1 N2].
  pose proof (DecimalZ.of_to n) as Hn.
  unfold num_str. destruct (Z.to_int n) as [d|d] eqn:E.
  - assert (P : parse_number false (uint_str d ++ rest) = Some (JNum n, rest)).
    { unfold parse_number. rewrite read_digits_uint by exact H.
      destruct d; [congruence| ..]; rewrite Hn; reflexivity. }
    rewrite <- P. destruct d; [congruence| ..]; reflexivity.
  - simpl. unfold parse_number. rewrite read_digits_uint by exact H.
    destruct d; [congruence| ..]; rewrite Hn; reflexivity.
Qed.

Lemma stringify_arr_cons (x : json) (r : list json) :
  stringify (JArr (x :: r)) = "[" ++ stringify x ++ elems_tail r.
Proof. reflexivity. Qed.

Lemma stringify_obj_cons (k : string) (x : json) (m : list (string * json)) :
  stringify (JObj ((k, x) :: m)) = "{" ++ quote k ++ ":" ++ stringify x ++ members_tail m.
Proof. reflexivity. Qed.

Lemma json_size_arr (l : list json) : json_size (JArr l) = S (elems_size l).
Proof. reflexivity. Qed.

Lemma json_size_obj (m : list (string * json)) : json_size (JObj m) = S (members_size m).
Proof. reflexivity. Qed.

Lemma parse_value_dquote (f : nat) (r : string) :
  parse_value (S f) (String dquote r)
  = match parse_str_body r with Some (t, r') => Some (JStr t, r') | None => None end.
Proof. reflexivity. Qed.

Lemma parse_elems_S (f : nat) (s : string) :
  parse_elems (S f) s =
  match parse_value f s with
  | None => None
  | Some (v, r) =>
      match skip_ws r with
      | String "," r' =>
          match parse_elems f r' with Some (l, r'') => Some (v :: l, r'') | None => None end
      | String "]" r' => Some ([v], r')
      | _ => None
      end
  end.
Proof. reflexivity. Qed.

Lemma parse_members_S_key (f : nat) (r : string) :
  parse_members (S f) (String dquote r) =
  match parse_str_body r with
  | None => None
  | Some (k, r1) =>
      match skip_ws r1 with
      | String ":" r2 =>
          match parse_value f r2 with
          | None => None
          | Some (v, r3) =>
              match skip_ws r3 with
              | String "," r4 =>
                  match parse_members f r4 with
                  | Some (m, r5) => Some ((k, v) :: m, r5)
                  | None => None
                  end
              | String "}" r4 => Some ([(k, v)], r4)
              | _ => None
              end
          end
      | _ => None
      end
  end.
Proof. reflexivity. Qed.

(** An array whose first element is a value: the parser goes to the
    element list. *)
Lemma parse_value_arr_open (f : nat) (x : json) (y : string) :
  parse_value (S f) (String "[" (stringify x ++ y))
  = match parse_elems f (stringify x ++ y) with
    | Some (l, r') => Some (JArr l, r')
    | None => None
    end.
Proof.
  destruct x as [| [] | n | s | [|z l] | [|[k z] m]]; try reflexivity.
  pose proof (to_int_nonnil n) as [N1 N2].
  simpl stringify; unfold num_str.
  destruct (Z.to_int n) as [d|d]; [|reflexivity].
  destruct d; [congruence| ..]; reflexivity.
Qed.

Lemma parse_value_obj_open (f : nat) (k : string) (y : string) :
  parse_value (S f) (String "{" (quote k ++ y))
  = match parse_members f (quote k ++ y) with
    | Some (m, r') => Some (JObj m, r')
    | None => None
    end.
Proof. reflexivity. Qed.

Lemma elems_parse (l : list json) :
  Forall parses_back l -> forall x, parses_back x ->
  forall f rest, S (json_size x + elems_size l) <= f -> no_digit_head rest ->
  parse_elems f (stringify x ++ (elems_tail l ++ rest)) = Some (x :: l, rest).
Proof.
  induction l as [|y l IH]; intros Hl x Hx f rest Hf Hr;
    (destruct f as [|f]; [lia|]); rewrite parse_elems_S.
  - rewrite Hx by (simpl; lia || exact I || reflexivity). reflexivity.
  - inversion Hl as [|? ? Hy Hl']; subst.
    rewrite Hx by (simpl; cbn [elems_size] in Hf; lia || reflexivity).
    change (elems_tail (y :: l)) with ("," ++ stringify y ++ elems_tail l).
    rewrite !str_app_assoc. simpl skip_ws. cbn iota.
    rewrite IH; [reflexivity | exact Hl' | exact Hy | cbn [elems_size] in Hf; lia | exact Hr].
Qed.

Lemma quote_app (k y : string) :
  quote k ++ y = String dquote (escape_string k ++ String dquote y).
Proof. unfold quote. simpl. now rewrite str_app_assoc. Qed.

Lemma str_cons1_app (c : ascii) (y : string) : String c EmptyString ++ y = String c y.
Proof. reflexivity. Qed.

Lemma skip_ws_lead (c : ascii) (y : string) : is_ws c = false -> skip_ws (String c y) = String c y.
Proof. intros H. simpl. now rewrite H. Qed.

Lemma members_parse (m : list (string * json)) :
  Forall (fun kv => parses_back (snd kv)) m -> forall k x, parses_back x ->
  forall f rest, S (json_size x + members_size m) <= f -> no_digit_head rest ->
  parse_members f (quote k ++ ":" ++ stringify x ++ (members_tail m ++ rest))
  = Some ((k, x) :: m, rest).
Proof.
  induction m as [|[k' y] m IH]; intros Hm k x Hx f rest Hf Hr;
    (destruct f as [|f]; [lia|]);
    rewrite quote_app, parse_members_S_key, escape_string_parse, (str_cons1_app ":"),
      skip_ws_lead by reflexivity; cbv beta iota.
  - rewrite Hx by (simpl; lia || exact I || reflexivity). reflexivity.
  - inversion Hm as [|? ? Hy Hm']; subst.
    rewrite Hx by (simpl; cbn [members_size] in Hf; lia || reflexivity).
    change (members_tail ((k', y) :: m))
      with ("," ++ quote k' ++ ":" ++ stringify y ++ members_tail m).
    rewrite !str_app_assoc, (str_cons1_app ","), skip_ws_lead by reflexivity. cbv beta iota.
    rewrite IH; [reflexivity | exact Hm' | exact Hy | cbn [members_size] in Hf; lia | exact Hr].
Qed.

Lemma stringify_parse (v : json) : parses_back v.
Proof.
  induction v using json_ind_nested; intros f rest Hf Hr.
  - destruct f; [simpl in Hf; lia|]. reflexivity.
  - destruct f; [simpl in Hf; lia|]. destruct b; reflexivity.
  - destruct f; [simpl in Hf; lia|]. now apply num_parse.
  - destruct f; [simpl in Hf; lia|].
    unfold stringify. rewrite quote_app, parse_value_dquote, escape_string_parse. reflexivity.
  - destruct l as [|x r]; (destruct f; [simpl in Hf; lia|]); [reflexivity|].
    inversion H as [|? ? Hx Hrs]; subst.
    rewrite stringify_arr_cons, !str_app_assoc, (str_cons1_app "[").
    rewrite parse_value_arr_open, elems_parse; [reflexivity | exact Hrs | exact Hx | | exact Hr].
    rewrite json_size_arr in Hf. cbn [elems_size] in Hf. lia.
  - destruct m as [|[k x] r]; (destruct f; [simpl in Hf; lia|]); [reflexivity|].
    inversion H as [|? ? Hx Hrs]; subst.
    rewrite stringify_obj_cons, !str_app_assoc, (str_cons1_app "{").
    rewrite parse_value_obj_open, members_parse; [reflexivity | exact Hrs | exact Hx | | exact Hr].
    rewrite json_size_obj in Hf. cbn [members_size] in Hf. lia.
Qed.

Lemma str_length_app (a b : string) : String.length (a ++ b) = String.length a + String.length b.
Proof. induction a as [|c a IH]; simpl; [reflexivity | now rewrite IH]. Qed.

Lemma num_str_length (n : Z) : 1 <= String.length (num_str n).
Proof.
  pose proof (to_int_nonnil n) as [N1 N2]. unfold num_str.
  destruct (Z.to_int n) as [d|d]; [destruct d; [congruence| ..] | ]; simpl; lia.
Qed.

Lemma quote_length (k : string) : 2 <= String.length (quote k).
Proof. unfold quote. simpl. rewrite str_length_app. simpl. lia. Qed.

Lemma json_size_le_length (v : json) : json_size v <= String.length (stringify v).
Proof.
  induction v using json_ind_nested.
  - simpl; lia.
  - destruct b; simpl; lia.
  - apply num_str_length.
  - simpl stringify. pose proof (quote_length s). simpl; lia.
  - destruct l as [|x r]; [simpl; lia|].
    inversion H as [|? ? Hx Hr]; subst.
    assert (T : S (elems_size r) <= String.length (elems_tail r)).
    { clear Hx H. induction r as [|y r IH]; [simpl; lia|].
      inversion Hr as [|? ? Hy Hr']; subst.
      change (elems_tail (y :: r)) with ("," ++ stringify y ++ elems_tail r).
      cbn [elems_size]. rewrite !str_length_app. specialize (IH Hr'). simpl String.length at 1. lia. }
    rewrite stringify_arr_cons, json_size_arr, !str_length_app. cbn [elems_size].
    simpl String.length at 1. lia.
  - destruct m as [|[k x] r]; [simpl; lia|].
    inversion H as [|? ? Hx Hr]; subst.
    assert (T : S (members_size r) <= String.length (members_tail r)).
    { clear Hx H. induction r as [|[k' y] r IH]; [simpl; lia|].
      inversion Hr as [|? ? Hy Hr']; subst.
      change (members_tail ((k', y) :: r))
        with ("," ++ quote k' ++ ":" ++ stringify y ++ members_tail r).
      cbn [members_size]. rewrite !str_length_app. specialize (IH Hr').
      pose proof (quote_length k'). simpl in Hy. simpl String.length at 1 2. lia. }
    rewrite stringify_obj_cons, json_size_obj, !str_length_app. cbn [members_size].
    pose proof (quote_length k). simpl in Hx. simpl String.length at 1 2. lia.
Qed.

Lemma JSON_parse_stringify (v : json) : JSON_parse (stringify v) = Some v.
Proof.
  unfold JSON_parse.
  pose proof (stringify_parse v (S (String.length (stringify v))) EmptyString) as H.
  rewrite str_app_nil_r in H. rewrite H; [reflexivity | | exact I].
  pose proof (json_size_le_length v). lia.
Qed.

(** ** The booking store *)

Lemma assoc_get_set (k v : string) (l : list (string * string)) :
  assoc_get k (assoc_set k v l) = Some v.
Proof.
  induction l as [|[k' v'] l IH]; simpl.
  - now rewrite String.eqb_refl.
  - destruct (String.eqb k k') eqn:E; simpl.
    + now rewrite String.eqb_refl.
    + now rewrite E.
Qed.

Lemma setItem_get (st st' : storage) (k v : string) :
  setItem st k v = Normal st' -> getItem st' k = Normal (Some v).
Proof.
  unfold setItem, getItem. destruct (accessible st) eqn:A; simpl; [|discriminate].
  destruct (Nat.ltb (quota st) (used (assoc_set k v (items st)))); [discriminate|].
  intros H. injection H as <-. simpl. now rewrite assoc_get_set.
Qed.

Lemma stringify_nonempty (v : json) : String.eqb (stringify v) EmptyString = false.
Proof.
  pose proof (json_size_le_length v) as H.
  destruct (stringify v); [destruct v; simpl in H; lia | reflexivity].
Qed.

Lemma saveBookings_rejected (st : storage) (v : json) (e : js_error) :
  setItem st "bookings" (stringify v) = Throw e -> fst (saveBookings st v) = st.
Proof. unfold saveBookings. now intros ->. Qed.

(** C2 (amended): [saveBookings(B)] followed by [getBookings()] returns
    [B] whenever [localStorage.setItem] accepts the write; when the write
    is rejected (quota exceeded, storage unavailable) the error is
    swallowed and [getBookings()] returns what it returned before. *)
Theorem store_roundtrip (st : storage) (B : list json) :
  getBookings (fst (saveBookings st (JArr B)))
  = match setItem st "bookings" (stringify (JArr B)) with
    | Normal _ => Normal (JArr B)
    | Throw _ => getBookings st
    end.
Proof.
  unfold saveBookings at 1.
  destruct (setItem st "bookings" (stringify (JArr B))) as [st'|e] eqn:E; simpl; [|reflexivity].
  unfold getBookings. rewrite (setItem_get _ _ _ _ E).
  unfold truthy_item. rewrite stringify_nonempty. cbn [negb].
  now rewrite JSON_parse_stringify.
Qed.

(** C2 fails as stated: the write exceeds the quota, [saveBookings]
    swallows the [QuotaExceededError], and the booking is not loaded back. *)
Lemma store_roundtrip_quota_cex :
  getBookings (fst (saveBookings small_storage (JArr one_booking))) = Normal (JArr [])
  /\ getBookings (fst (saveBookings small_storage (JArr one_booking))) <> Normal (JArr one_booking).
Proof. split; [vm_compute; reflexivity | vm_compute; discriminate]. Qed.

(** C7: [getBookings] always completes normally: with an empty array when
    the slot is unreadable, absent, empty or holds text that is not JSON,
    and with the parsed stored value otherwise. *)
Theorem getBookings_never_throws (st : storage) :
  getBookings st = Normal (load_spec st).
Proof.
  unfold getBookings, load_spec.
  destruct (getItem st "bookings") as [[s|]|e]; try reflexivity.
  unfold truthy_item. destruct (String.eqb s EmptyString); [reflexivity|]. simpl.
  destruct (JSON_parse s); reflexivity.
Qed.

(** ** [fetchWithRetry] *)

Section RetryLoop.
Variable net : nat -> response.
Variable retries : Z.

Lemma fwr_loop_exit (fuel : nat) (i : Z) (tr : ftrace) :
  (retries <= i)%Z -> fwr_loop net retries (S fuel) i tr = (FUndefined, tr).
Proof.
  intros H. simpl. destruct (Z.ltb_spec i retries); [lia | reflexivity].
Qed.

Lemma fwr_loop_ok (fuel : nat) (i : Z) (tr : ftrace) (v : json) :
  (i < retries)%Z -> attempt_result (net (attempts tr)) = Normal v ->
  fwr_loop net retries (S fuel) i tr = (FReturn v, mkTrace (S (attempts tr)) (delays tr)).
Proof.
  intros H R. simpl. destruct (Z.ltb_spec i retries); [|lia]. now rewrite R.
Qed.

Lemma fwr_loop_last (fuel : nat) (i : Z) (tr : ftrace) (e : js_error) :
  i = (retries - 1)%Z -> attempt_result (net (attempts tr)) = Throw e ->
  fwr_loop net retries (S fuel) i tr = (FThrow e, mkTrace (S (attempts tr)) (delays tr)).
Proof.
  intros H R. simpl. destruct (Z.ltb_spec i retries); [|lia]. rewrite R.
  destruct (Z.eqb_spec i (retries - 1)); [reflexivity | lia].
Qed.

Lemma fwr_loop_retry (fuel : nat) (i : Z) (tr : ftrace) (e : js_error) :
  (i < retries - 1)%Z -> attempt_result (net (attempts tr)) = Throw e ->
  fwr_loop net retries (S fuel) i tr
  = fwr_loop net retries fuel (i + 1)%Z
      (mkTrace (S (attempts tr)) (List.app (delays tr) [(2 ^ i * 1000)%Z])).
Proof.
  intros H R. simpl. destruct (Z.ltb_spec i retries); [|lia]. rewrite R.
  destruct (Z.eqb_spec i (retries - 1)); [lia | reflexivity].
Qed.

(** When every attempt from the [i]-th on fails, the loop makes the
    remaining [S n] attempts, sleeps [2^j] seconds after each but the
    last, and throws the last attempt's error. *)
Lemma fwr_loop_all_fail (n extra i : nat) (tr : ftrace) (e : js_error) :
  attempts tr = i -> Z.of_nat (i + S n) = retries ->
  (forall k, i <= k < i + n -> exists e', attempt_result (net k) = Throw e') ->
  attempt_result (net (i + n)) = Throw e ->
  fwr_loop net retries (S n + extra) (Z.of_nat i) tr
  = (FThrow e, mkTrace (i + S n)
                 (List.app (delays tr) (map (fun j => (2 ^ Z.of_nat j * 1000)%Z) (seq i n)))).
Proof.
  revert i tr. induction n as [|n IH]; intros i tr Ha Hr Hf He.
  - rewrite Nat.add_0_r in He. rewrite <- Ha in He.
    simpl plus. rewrite (fwr_loop_last _ _ _ e); [|lia|exact He].
    rewrite Ha, List.app_nil_r. f_equal. f_equal. lia.
  - destruct (Hf i) as [e' He']; [lia|].
    rewrite <- Ha in He'.
    change (S (S n) + extra) with (S (S n + extra)).
    rewrite (fwr_loop_retry _ _ _ e'); [|lia|exact He'].
    replace (Z.of_nat i + 1)%Z with (Z.of_nat (S i)) by lia.
    rewrite IH; [| simpl; lia | lia | intros k Hk; apply Hf; lia | ].
    + cbn [delays]. rewrite <- List.app_assoc. f_equal. f_equal; try lia; reflexivity.
    + now replace (S i + n) with (i + S n) by lia.
Qed.
End RetryLoop.

(** C1 (amended): with a budget of at least 3, a URL that fails twice and
    then succeeds is fetched exactly 3 times, after back-offs of 1 s and
    2 s, and the third body is returned; with a budget [retries >= 1], if
    every attempt fails, exactly [retries] attempts are made, with
    back-offs of [2^i] s after attempts [0 .. retries-2], and the last
    attempt's error is thrown. *)
Theorem fetchWithRetry_contract :
  (forall net retries v e0 e1,
     (3 <= retries)%Z ->
     attempt_result (net 0) = Throw e0 ->
     attempt_result (net 1) = Throw e1 ->
     attempt_result (net 2) = Normal v ->
     fetchWithRetry net retries = (FReturn v, mkTrace 3 [1000; 2000]%Z))
  /\
  (forall net retries e,
     (1 <= retries)%Z ->
     (forall k, k < Z.to_nat retries - 1 -> exists e', attempt_result (net k) = Throw e') ->
     attempt_result (net (Z.to_nat retries - 1)) = Throw e ->
     fetchWithRetry net retries
     = (FThrow e, mkTrace (Z.to_nat retries) (backoffs (Z.to_nat retries - 1)))).
Proof.
  split.
  - intros net retries v e0 e1 H3 F0 F1 S2. unfold fetchWithRetry.
    replace (S (Z.to_nat retries)) with (S (S (S (S (Z.to_nat retries - 3))))) by lia.
    rewrite (fwr_loop_retry net retries _ _ _ e0) by (lia || exact F0).
    rewrite (fwr_loop_retry net retries _ _ _ e1) by (lia || exact F1).
    rewrite (fwr_loop_ok net retries _ _ _ v) by (lia || exact S2).
    reflexivity.
  - intros net retries e H1 Hf He. unfold fetchWithRetry.
    pose proof (fwr_loop_all_fail net retries (Z.to_nat retries - 1) 1 0 (mkTrace 0 []) e
                  eq_refl) as L.
    replace (S (Z.to_nat retries - 1) + 1) with (S (Z.to_nat retries)) in L by lia.
    change (Z.of_nat 0) with 0%Z in L.
    rewrite L; [ | lia | intros k Hk; apply Hf; lia | exact He ].
    f_equal. f_equal. lia.
Qed.

Lemma fetchWithRetry_contract_witness :
  fetchWithRetry (net_ffs "[7]") 3 = (FReturn (JArr [JNum 7]), mkTrace 3 [1000; 2000]%Z)
  /\ fetchWithRetry (fun _ => Transport NetworkError) 4
     = (FThrow NetworkError, mkTrace 4 (backoffs 3)).
Proof.
  split.
  - apply (proj1 fetchWithRetry_contract _ _ _ (HttpError 503) (HttpError 503));
      [lia | reflexivity | reflexivity | reflexivity].
  - apply (proj2 fetchWithRetry_contract); [lia | | reflexivity].
    intros k _. exists NetworkError. reflexivity.
Defined.

(** C1 fails as stated for budgets below 3: with [retries = 2] the URL
    that fails twice then succeeds is fetched twice and the second
    failure is thrown. *)
Lemma fetchWithRetry_budget2_cex :
  fetchWithRetry (net_ffs "[7]") 2 = (FThrow (HttpError 503), mkTrace 2 [1000%Z])
  /\ fst (fetchWithRetry (net_ffs "[7]") 2) <> FReturn (JArr [JNum 7]).
Proof. split; [reflexivity | vm_compute; discriminate]. Qed.

(** C10: with a budget [retries <= 0] no [fetch] is made and the promise
    resolves to [undefined]: neither a body nor an error comes out. *)
Theorem fetchWithRetry_nonpositive_budget (net : nat -> response) (retries : Z) :
  (retries <= 0)%Z -> fetchWithRetry net retries = (FUndefined, mkTrace 0 []).
Proof.
  intros H. unfold fetchWithRetry.
  replace (Z.to_nat retries) with 0 by lia.
  apply fwr_loop_exit. lia.
Qed.

Lemma fetchWithRetry_nonpositive_budget_witness :
  fetchWithRetry (fun _ => Transport NetworkError) 0 = (FUndefined, mkTrace 0 []).
Proof. apply fetchWithRetry_nonpositive_budget. lia. Defined.

(** ** The search controller *)

Lemma or_empty_lookup (m : list (string * json)) (k : string) :
  or_empty (match obj_get k m with Some v => JSValue v | None => JSUndefined end)
  = field_or_empty m k.
Proof.
  unfold or_empty, field_or_empty. destruct (obj_get k m) as [v|]; [|reflexivity].
  destruct (truthy (JSValue v)); reflexivity.
Qed.

Lemma project_obj (m : list (string * json)) : project (JObj m) = Normal (project_fields m).
Proof.
  unfold project, project_fields, get_prop. simpl map_c.
  rewrite !or_empty_lookup. reflexivity.
Qed.

Lemma has_name_project (m : list (string * json)) : has_name (project_fields m) = name_present m.
Proof.
  unfold has_name, project_fields, get_prop, name_present. simpl.
  unfold field_or_empty. destruct (obj_get "Hospital Name" m) as [v|]; [|reflexivity].
  destruct (truthy (JSValue v)) eqn:T; [reflexivity | simpl in T |- *; now rewrite T].
Qed.

Lemma map_c_project (l : list (list (string * json))) :
  map_c project (map JObj l) = Normal (map project_fields l).
Proof.
  induction l as [|m l IH]; [reflexivity|].
  cbn [map map_c]. rewrite project_obj, IH. reflexivity.
Qed.

Lemma filter_map_comm {A B : Type} (f : A -> B) (p : B -> bool) (l : list A) :
  filter p (map f l) = map f (filter (fun x => p (f x)) l).
Proof.
  induction l as [|x l IH]; [reflexivity|]. simpl. destruct (p (f x)); simpl; now rewrite IH.
Qed.

(** C5 (amended): for an array of hospital objects, the search results are
    the records whose ['Hospital Name'] is present and truthy, in order,
    each projected on the five fields with every missing or falsy value
    ([undefined], [null], [false], [0], ['']) replaced by ['']; so every
    result carries a truthy name. *)
Theorem search_results_projection (l : list (list (string * json))) :
  search_results_of (FReturn (JArr (map JObj l)))
  = map project_fields (filter name_present l)
  /\ forallb has_name (search_results_of (FReturn (JArr (map JObj l)))) = true.
Proof.
  assert (E : search_results_of (FReturn (JArr (map JObj l)))
              = map project_fields (filter name_present l)).
  { unfold search_results_of. simpl. rewrite map_c_project, filter_map_comm.
    f_equal. apply filter_ext. intros m. apply has_name_project. }
  split; [exact E|]. rewrite E.
  apply forallb_forall. intros h Hh. apply in_map_iff in Hh as [m [<- Hm]].
  apply filter_In in Hm as [_ Hm]. now rewrite has_name_project.
Qed.

(** C5 fails as stated: a present field with a falsy value is not kept, the
    rating [0] becomes [''] rather than staying [0]. *)
Lemma search_results_falsy_cex :
  search_results_of (FReturn (JArr [JObj rated_zero]))
  = [JObj [("Hospital Name", JStr "St. Mary"); ("City", JStr "Los Angeles");
           ("State", JStr "California"); ("Hospital Type", JStr "Acute Care Hospitals");
           ("Hospital overall rating", JStr EmptyString)]]
  /\ search_results_of (FReturn (JArr [JObj rated_zero])) <> [JObj rated_zero].
Proof. split; [vm_compute; reflexivity | vm_compute; discriminate]. Qed.

(** C3: a change of the selected state (to a state, to [''] or to
    [null]) clears the city list, the selected city and the search
    results within the same synchronous step; a cities request for the
    new state, when there is one, has only been issued. *)
Theorem select_state_clears (a : app) (v : option string) :
  opt_str_eqb v (selectedState a) = false ->
  selectedState (step a (SelectState v)) = v
  /\ cities (step a (SelectState v)) = []
  /\ selectedCity (step a (SelectState v)) = None
  /\ searchResults (step a (SelectState v)) = []
  /\ inflight (step a (SelectState v))
     = match v with
       | Some s => if sel_truthy v then List.app (inflight a) [(next_req a, StCities s)]
                   else inflight a
       | None => inflight a
       end.
Proof.
  intros H. unfold step. rewrite H. unfold selectedState_effect.
  destruct v as [s|]; cbn [selectedState set_selectedState].
  - destruct (sel_truthy (Some s)); repeat split.
  - repeat split.
Qed.

(** C4 fails: after the city changes from Los Angeles to San Diego, the
    Los Angeles results are still there. *)
Lemma select_city_keeps_results_cex :
  selectedCity city_change_run = Some "San Diego"
  /\ searchResults city_change_run
     = [JObj [("Hospital Name", JStr "CEDARS"); ("City", JStr "Los Angeles");
              ("State", JStr "California"); ("Hospital Type", JStr EmptyString);
              ("Hospital overall rating", JStr EmptyString)]]
  /\ searchResults city_change_run <> [].
Proof. split; [|split]; vm_compute; [reflexivity | reflexivity | discriminate]. Qed.

(** C4 (amended): changing only the city leaves the search results as
    they were; they are cleared when a search starts (and when the state
    changes, C3). *)
Theorem select_city_keeps_results (a : app) (v : option string) :
  searchResults (step a (SelectCity v)) = searchResults a
  /\ selectedState (step a (SelectCity v)) = selectedState a
  /\ (search_enabled a = true -> searchResults (step a ClickSearch) = []).
Proof.
  split; [|split].
  - simpl. destruct (opt_str_eqb v (selectedCity a)); reflexivity.
  - simpl. destruct (opt_str_eqb v (selectedCity a)); reflexivity.
  - unfold search_enabled. intros H. unfold step.
    destruct (sel_truthy (selectedState a)) eqn:S1; [|discriminate].
    destruct (sel_truthy (selectedCity a)) eqn:S2; [|discriminate].
    destruct (ld_hospitals (isLoading a)); [discriminate|]. simpl.
    unfold handleSearch_start.
    destruct (selectedState a) as [s|]; [|discriminate].
    destruct (selectedCity a) as [c|]; [|discriminate].
    rewrite S1, S2. reflexivity.
Qed.

Lemma select_city_keeps_results_witness :
  searchResults (step city_change_run (SelectCity (Some "Los Angeles"))) = searchResults city_change_run
  /\ selectedState (step city_change_run (SelectCity (Some "Los Angeles"))) = selectedState city_change_run
  /\ searchResults (step city_change_run ClickSearch) = [].
Proof.
  pose proof (select_city_keeps_results city_change_run (Some "Los Angeles")) as [H1 [H2 H3]].
  split; [exact H1 | split; [exact H2 | apply H3; vm_compute; reflexivity]].
Defined.

Lemma filter_index_append (B : list json) (b : json) (i : Z) :
  filter_index (List.app B [b]) i (i + Z.of_nat (length B))%Z = B.
Proof.
  revert i. induction B as [|x B IH]; intros i; cbn [List.app filter_index length].
  - rewrite Z.add_0_r, Z.eqb_refl. reflexivity.
  - destruct (Z.eqb_spec i (i + Z.of_nat (S (length B)))); [lia|].
    f_equal. replace (i + Z.of_nat (S (length B)))%Z with ((i + 1) + Z.of_nat (length B))%Z by lia.
    apply IH.
Qed.

(** C6: booking [b] and then cancelling the booking at index [|B|]
    gives the booking list [B] back. *)
Theorem book_then_cancel (a : app) (B : list json) (b : json) :
  bookings a = JArr B ->
  bookings (step (step a (Book b)) (CancelBooking (Z.of_nat (length B)))) = JArr B.
Proof.
  intros H. unfold step, handleBook, spread_append. rewrite H.
  unfold handleCancelBooking. cbn [bookings set_store set_bookings].
  f_equal. apply (filter_index_append B b 0).
Qed.

Lemma book_then_cancel_witness :
  bookings (step (step (init_app small_storage) (Book (JObj rated_zero))) (CancelBooking 0)) = JArr [].
Proof. apply (book_then_cancel (init_app small_storage) [] (JObj rated_zero)). reflexivity. Defined.

(** ** Loading flags and in-flight requests *)

Lemma find_req_app (rid : nat) (l extra : list (nat * stage)) (s : stage) :
  find_req rid l = Some s -> find_req rid (List.app l extra) = Some s.
Proof.
  induction l as [|[r s'] l IH]; [discriminate|]. simpl.
  destruct (Nat.eqb r rid); [exact (fun H => H) | exact IH].
Qed.

Lemma selection_extends_inflight (a : app) (e : event) :
  is_selection e = true -> exists extra, inflight (step a e) = List.app (inflight a) extra.
Proof.
  destruct e as [| v | v | | rid net | b | i]; try discriminate; intros _; unfold step.
  - destruct (opt_str_eqb v (selectedState a)); [exists []; now rewrite List.app_nil_r|].
    unfold selectedState_effect. destruct v as [s|]; cbn [selectedState set_selectedState].
    + destruct (sel_truthy (Some s)); [eexists; reflexivity|].
      exists []; now rewrite List.app_nil_r.
    + exists []; now rewrite List.app_nil_r.
  - destruct (opt_str_eqb v (selectedCity a)); exists []; now rewrite List.app_nil_r.
  - destruct (_ || _ || _); [exists []; now rewrite List.app_nil_r|].
    unfold handleSearch_start.
    destruct (selectedState a) as [s|]; [|exists []; now rewrite List.app_nil_r].
    destruct (selectedCity a) as [c|]; [|exists []; now rewrite List.app_nil_r].
    destruct (sel_truthy (Some s) && sel_truthy (Some c)); [eexists; reflexivity|].
    exists []; now rewrite List.app_nil_r.
Qed.

Lemma step_settle (a : app) (rid : nat) (net : nat -> response) (s : stage) :
  find_req rid (inflight a) = Some s ->
  step a (Settle rid net)
  = finish_stage (set_inflight a (remove_req rid (inflight a))) s
                 (fst (fetchWithRetry net default_retries)).
Proof. intros H. simpl. now rewrite H. Qed.

(** C8: each stage raises its own loading flag when it starts and lowers
    it when its request settles, whatever the outcome (body, error, or
    [undefined]). *)
Theorem loading_flags_bracket_stages :
  (forall a, ld_states (isLoading (step a Mount)) = true)
  /\ (forall a rid net,
        find_req rid (inflight a) = Some StStates ->
        ld_states (isLoading (step a (Settle rid net))) = false)
  /\ (forall a v,
        opt_str_eqb v (selectedState a) = false -> sel_truthy v = true ->
        ld_cities (isLoading (step a (SelectState v))) = true)
  /\ (forall a rid net s,
        find_req rid (inflight a) = Some (StCities s) ->
        ld_cities (isLoading (step a (Settle rid net))) = false)
  /\ (forall a,
        search_enabled a = true ->
        ld_hospitals (isLoading (step a ClickSearch)) = true)
  /\ (forall a rid net s c,
        find_req rid (inflight a) = Some (StHospitals s c) ->
        ld_hospitals (isLoading (step a (Settle rid net))) = false).
Proof.
  split; [|split; [|split; [|split; [|split]]]].
  - intros a. reflexivity.
  - intros a rid net H. rewrite (step_settle _ _ _ _ H). simpl finish_stage.
    destruct (states_of _); reflexivity.
  - intros a v H T. unfold step. rewrite H. unfold selectedState_effect.
    destruct v as [s|]; [|discriminate]. cbn [selectedState set_selectedState].
    rewrite T. reflexivity.
  - intros a rid net s H. rewrite (step_settle _ _ _ _ H). simpl finish_stage.
    destruct (cities_of _); reflexivity.
  - unfold search_enabled. intros a H. unfold step.
    destruct (sel_truthy (selectedState a)) eqn:S1; [|discriminate].
    destruct (sel_truthy (selectedCity a)) eqn:S2; [|discriminate].
    destruct (ld_hospitals (isLoading a)); [discriminate|]. simpl.
    unfold handleSearch_start.
    destruct (selectedState a) as [s|]; [|discriminate].
    destruct (selectedCity a) as [c|]; [|discriminate].
    rewrite S1, S2. reflexivity.
  - intros a rid net s c H. rewrite (step_settle _ _ _ _ H). reflexivity.
Qed.

Lemma loading_flags_bracket_stages_witness :
  ld_states (isLoading (step race_app Mount)) = true
  /\ ld_states (isLoading (step race_app (Settle 0 states_net))) = false
  /\ ld_cities (isLoading (step race_app (SelectState (Some "Utah")))) = true
  /\ ld_cities (isLoading (step race_app (Settle 1 (fun _ => Transport NetworkError)))) = false
  /\ ld_hospitals (isLoading (step (step city_change_run (SelectCity (Some "Los Angeles"))) ClickSearch)) = true
  /\ ld_hospitals (isLoading (step (step city_change_run ClickSearch) (Settle 3 hospitals_net))) = false.
Proof.
  destruct loading_flags_bracket_stages as [P1 [P2 [P3 [P4 [P5 P6]]]]].
  split; [apply P1|]. split; [apply P2; vm_compute; reflexivity|].
  split; [apply P3; vm_compute; reflexivity|].
  split; [apply (P4 _ _ _ "Alabama"); vm_compute; reflexivity|].
  split; [apply P5; vm_compute; reflexivity|].
  apply (P6 _ _ _ "California" "San Diego"). vm_compute. reflexivity.
Defined.

(** C9: selecting another state or city, or starting another search,
    cancels no request in flight; when a cities or hospitals request
    settles, its result is applied whatever the current selection is. *)
Theorem stale_responses_apply :
  (forall a e rid stg,
     is_selection e = true -> find_req rid (inflight a) = Some stg ->
     find_req rid (inflight (step a e)) = Some stg)
  /\ (forall a rid net s,
        find_req rid (inflight a) = Some (StCities s) ->
        cities (step a (Settle rid net))
        = match cities_of (fst (fetchWithRetry net default_retries)) with
          | Normal v => v
          | Throw _ => cities a
          end
        /\ selectedState (step a (Settle rid net)) = selectedState a
        /\ selectedCity (step a (Settle rid net)) = selectedCity a)
  /\ (forall a rid net s c,
        find_req rid (inflight a) = Some (StHospitals s c) ->
        searchResults (step a (Settle rid net))
        = search_results_of (fst (fetchWithRetry net default_retries))
        /\ selectedState (step a (Settle rid net)) = selectedState a
        /\ selectedCity (step a (Settle rid net)) = selectedCity a).
Proof.
  split; [|split].
  - intros a e rid stg Hs H. destruct (selection_extends_inflight a e Hs) as [extra ->].
    now apply find_req_app.
  - intros a rid net s H. rewrite (step_settle _ _ _ _ H). simpl finish_stage.
    destruct (cities_of _); repeat split.
  - intros a rid net s c H. rewrite (step_settle _ _ _ _ H). repeat split.
Qed.

Lemma stale_responses_apply_witness :
  find_req 1 (inflight race_app) = Some (StCities "Alabama")
  /\ selectedState race_app = Some "Texas"
  /\ cities (step race_app (Settle 1 alabama_net)) = [JStr "Birmingham"; JStr "Mobile"]
  /\ selectedState (step race_app (Settle 1 alabama_net)) = Some "Texas".
Proof.
  destruct stale_responses_apply as [P1 [P2 P3]].
  assert (F : find_req 1 (inflight race_app) = Some (StCities "Alabama")).
  { apply (P1 (step (step (init_app small_storage) Mount) (SelectState (Some "Alabama")))
              (SelectState (Some "Texas"))); vm_compute; reflexivity. }
  destruct (P2 race_app 1 alabama_net "Alabama" F) as [C [S _]].
  split; [exact F|]. split; [vm_compute; reflexivity|].
  split; [rewrite C; vm_compute; reflexivity | rewrite S; vm_compute; reflexivity].
Defined.

Lemma select_state_clears_witness :
  opt_str_eqb (Some "Utah") (selectedState race_app) = false
  /\ selectedState (step race_app (SelectState (Some "Utah"))) = Some "Utah"
  /\ cities (step race_app (SelectState (Some "Utah"))) = []
  /\ selectedCity (step race_app (SelectState (Some "Utah"))) = None
  /\ searchResults (step race_app (SelectState (Some "Utah"))) = []
  /\ inflight (step race_app (SelectState (Some "Utah")))
     = match Some "Utah" with
       | Some s => if sel_truthy (Some "Utah") then List.app (inflight race_app) [(next_req race_app, StCities s)]
                   else inflight race_app
       | None => inflight race_app
       end.
Proof.
  assert (H : opt_str_eqb (Some "Utah") (selectedState race_app) = false)
    by (vm_compute; reflexivity).
  split; [exact H | exact (select_state_clears race_app (Some "Utah") H)].
Defined.

(* ------------------------------------------------------------------ *)
(** ** Properties of the rest of [App.js] *)

Lemma assoc_get_set_other (k k' v : string) (l : list (string * string)) :
  k' <> k -> assoc_get k' (assoc_set k v l) = assoc_get k' l.
Proof.
  intros Hne. induction l as [|[k0 v0] l IH]; simpl.
  - destruct (String.eqb_spec k' k); [contradiction | reflexivity].
  - destruct (String.eqb_spec k k0) as [->|E]; simpl.
    + destruct (String.eqb_spec k' k0); [contradiction | reflexivity].
    + destruct (String.eqb k' k0); [reflexivity | exact IH].
Qed.

Lemma assoc_set_same (k v : string) (l : list (string * string)) :
  assoc_get k l = Some v -> assoc_set k v l = l.
Proof.
  induction l as [|[k0 v0] l IH]; simpl; [discriminate|].
  destruct (String.eqb_spec k k0) as [->|E].
  - intros H. now injection H as ->.
  - intros H. now rewrite IH.
Qed.

(** X1: [getBookings] yields an empty array when the storage is unreadable, when the [bookings] item is absent or empty, or when it is not valid JSON. *)
Theorem getBookings_fallback (st : storage) :
  accessible st = false
  \/ truthy_item (assoc_get "bookings" (items st)) = false
  \/ (exists s, assoc_get "bookings" (items st) = Some s /\ JSON_parse s = None) ->
  getBookings st = Normal (JArr []).
Proof.
  unfold getBookings, getItem. intros [A | [T | [s [G P]]]].
  - now rewrite A.
  - destruct (accessible st); [|reflexivity]. now rewrite T.
  - destruct (accessible st); [|reflexivity]. rewrite G, P.
    now destruct (truthy_item (Some s)).
Qed.

(** X2: [saveBookings] never throws, and it leaves every key other than [bookings], the availability and the quota of the storage unchanged. *)
Theorem saveBookings_frame (st : storage) (v : json) (k : string) :
  k <> "bookings" ->
  assoc_get k (items (fst (saveBookings st v))) = assoc_get k (items st)
  /\ accessible (fst (saveBookings st v)) = accessible st
  /\ quota (fst (saveBookings st v)) = quota st
  /\ snd (saveBookings st v) = Normal tt.
Proof.
  intros Hk. unfold saveBookings, setItem.
  destruct (accessible st) eqn:A; [|simpl; auto].
  cbn [negb].
  destruct (Nat.ltb (quota st) (used (assoc_set "bookings" (stringify v) (items st)))); [simpl; auto|].
  simpl. split; [now apply assoc_get_set_other|]. split; [congruence|]. now split.
Qed.


(** X4: saving the same bookings twice has the effect of saving them once. *)
Theorem saveBookings_idempotent (st : storage) (v : json) :
  saveBookings (fst (saveBookings st v)) v = saveBookings st v.
Proof.
  destruct (setItem st "bookings" (stringify v)) as [st'|e] eqn:E.
  - assert (R : saveBookings st v = (st', Normal tt)) by (unfold saveBookings; now rewrite E).
    rewrite R. cbn [fst]. unfold setItem in E.
    destruct (accessible st) eqn:A; [|discriminate]. cbn [negb] in E.
    destruct (Nat.ltb (quota st) (used (assoc_set "bookings" (stringify v) (items st)))) eqn:Q;
      [discriminate|]. injection E as <-.
    unfold saveBookings, setItem. cbn [accessible items quota negb].
    rewrite assoc_set_same by apply assoc_get_set. now rewrite Q.
  - assert (R : saveBookings st v = (st, Normal tt)) by (unfold saveBookings; now rewrite E).
    rewrite R. exact R.
Qed.

Lemma backoffs_S (n : nat) : backoffs (S n) = List.app (backoffs n) [(2 ^ Z.of_nat n * 1000)%Z].
Proof. unfold backoffs. now rewrite seq_S, map_app. Qed.

(** The attempts [i .. i+k-1] fail, attempt [i+k] succeeds. *)

Lemma fwr_loop_success (net : nat -> response) (retries : Z) (k extra i : nat) (tr : ftrace) (v : json) :
  attempts tr = i -> (Z.of_nat (i + k) < retries)%Z ->
  (forall j, i <= j < i + k -> exists e, attempt_result (net j) = Throw e) ->
  attempt_result (net (i + k)) = Normal v ->
  fwr_loop net retries (S k + extra) (Z.of_nat i) tr
  = (FReturn v, mkTrace (i + S k)
                  (List.app (delays tr) (map (fun j => (2 ^ Z.of_nat j * 1000)%Z) (seq i k)))).
Proof.
  revert i tr. induction k as [|k IH]; intros i tr Ha Hr Hf Hv.
  - rewrite Nat.add_0_r in Hv. rewrite <- Ha in Hv.
    simpl plus. rewrite (fwr_loop_ok _ _ _ _ _ v); [|lia|exact Hv].
    rewrite Ha, List.app_nil_r. f_equal. f_equal. lia.
  - destruct (Hf i) as [e He]; [lia|]. rewrite <- Ha in He.
    change (S (S k) + extra) with (S (S k + extra)).
    rewrite (fwr_loop_retry _ _ _ _ _ e); [|lia|exact He].
    replace (Z.of_nat i + 1)%Z with (Z.of_nat (S i)) by lia.
    rewrite IH; [| simpl; lia | lia | intros j Hj; apply Hf; lia | ].
    + cbn [delays]. rewrite <- List.app_assoc. f_equal. f_equal; try lia; reflexivity.
    + now replace (S i + k) with (i + S k) by lia.
Qed.

(** X5: when attempts [0 .. k-1] fail and attempt [k] (within the budget) succeeds, [fetchWithRetry] returns attempt [k]'s body after exactly [k+1] requests, having waited [1000 * 2^j] ms after each failed attempt [j]. *)
Theorem fetchWithRetry_first_success (net : nat -> response) (retries : Z) (k : nat) (v : json) :
  (Z.of_nat k < retries)%Z ->
  (forall j, j < k -> exists e, attempt_result (net j) = Throw e) ->
  attempt_result (net k) = Normal v ->
  fetchWithRetry net retries = (FReturn v, mkTrace (S k) (backoffs k)).
Proof.
  intros Hk Hf Hv. unfold fetchWithRetry.
  replace (S (Z.to_nat retries)) with (S k + (Z.to_nat retries - k)) by lia.
  change 0%Z with (Z.of_nat 0).
  rewrite (fwr_loop_success net retries k _ 0 (mkTrace 0 []) v); try reflexivity.
  - simpl; lia.
  - intros j Hj. apply Hf. lia.
  - exact Hv.
Qed.

(** Shape of the loop from iteration [i] on. *)

Lemma fwr_loop_shape (net : nat -> response) (retries : Z) (fuel : nat) :
  forall (i : Z) (tr : ftrace),
  (0 <= i < retries)%Z -> (retries - i < Z.of_nat fuel)%Z ->
  attempts tr = Z.to_nat i -> delays tr = backoffs (Z.to_nat i) ->
  fst (fwr_loop net retries fuel i tr) <> FUndefined
  /\ Z.to_nat i < attempts (snd (fwr_loop net retries fuel i tr)) <= Z.to_nat retries
  /\ delays (snd (fwr_loop net retries fuel i tr))
     = backoffs (attempts (snd (fwr_loop net retries fuel i tr)) - 1).
Proof.
  induction fuel as [|fuel IH]; intros i tr Hi Hf Ha Hd; [lia|].
  simpl. destruct (Z.ltb_spec i retries); [|lia].
  destruct (attempt_result (net (attempts tr))) as [v|e].
  - cbn [fst snd attempts delays]. split; [discriminate|]. split; [lia|].
    rewrite Hd. f_equal. lia.
  - destruct (Z.eqb_spec i (retries - 1)).
    + cbn [fst snd attempts delays]. split; [discriminate|]. split; [lia|].
      rewrite Hd. f_equal. lia.
    + destruct (IH (i + 1)%Z (mkTrace (S (attempts tr)) (List.app (delays tr) [(2 ^ i * 1000)%Z])))
        as [R1 [R2 R3]]; [lia | lia | cbn [attempts]; lia | | ].
      * cbn [delays]. replace (Z.to_nat (i + 1)) with (S (Z.to_nat i)) by lia.
        rewrite backoffs_S, Hd. f_equal. f_equal. f_equal. f_equal. lia.
      * split; [exact R1|]. split; [lia | exact R3].
Qed.

Lemma fwr_settle_shape (net : nat -> response) (retries : Z) :
  (1 <= retries)%Z ->
  fst (fetchWithRetry net retries) <> FUndefined
  /\ 1 <= attempts (snd (fetchWithRetry net retries)) <= Z.to_nat retries
  /\ delays (snd (fetchWithRetry net retries))
     = backoffs (attempts (snd (fetchWithRetry net retries)) - 1).
Proof.
  intros H. unfold fetchWithRetry.
  destruct (fwr_loop_shape net retries (S (Z.to_nat retries)) 0%Z (mkTrace 0 []))
    as [R1 [R2 R3]]; try reflexivity; try lia.
  split; [exact R1|]. split; [lia | exact R3].
Qed.

(** X6: with a budget of at least one attempt, [fetchWithRetry] always returns a value or throws (it never falls off its loop), makes between 1 and [retries] attempts, and waits only between attempts. *)
Theorem fetchWithRetry_settles (net : nat -> response) (retries : Z) :
  (1 <= retries)%Z ->
  fst (fetchWithRetry net retries) <> FUndefined
  /\ 1 <= attempts (snd (fetchWithRetry net retries)) <= Z.to_nat retries
  /\ delays (snd (fetchWithRetry net retries))
     = backoffs (attempts (snd (fetchWithRetry net retries)) - 1).
Proof. exact (fwr_settle_shape net retries). Qed.

Lemma backoffs_sum (n : nat) :
  fold_right Z.add 0%Z (backoffs n) = ((2 ^ Z.of_nat n - 1) * 1000)%Z.
Proof.
  induction n as [|n IH]; [reflexivity|].
  rewrite backoffs_S, fold_right_app. cbn [fold_right].
  assert (G : forall l x, fold_right Z.add x l = (fold_right Z.add 0 l + x)%Z).
  { induction l as [|y l IHl]; intros x; simpl; [lia|]. rewrite IHl. lia. }
  rewrite G, IH. rewrite Nat2Z.inj_succ, Z.pow_succ_r by lia. lia.
Qed.

(** X7: the total time [fetchWithRetry] waits is [(2^(n-1) - 1) * 1000] ms for [n] attempts, at most [(2^(retries-1) - 1) * 1000] ms. *)
Theorem fetchWithRetry_total_backoff (net : nat -> response) (retries : Z) :
  (1 <= retries)%Z ->
  fold_right Z.add 0%Z (delays (snd (fetchWithRetry net retries)))
  = ((2 ^ Z.of_nat (attempts (snd (fetchWithRetry net retries)) - 1) - 1) * 1000)%Z
  /\ (fold_right Z.add 0%Z (delays (snd (fetchWithRetry net retries)))
      <= (2 ^ (retries - 1) - 1) * 1000)%Z.
Proof.
  intros H. destruct (fwr_settle_shape net retries H) as [_ [B D]].
  rewrite D, backoffs_sum. split; [reflexivity|].
  assert (P : (2 ^ Z.of_nat (attempts (snd (fetchWithRetry net retries)) - 1)
               <= 2 ^ (retries - 1))%Z).
  { apply Z.pow_le_mono_r; lia. }
  lia.
Qed.

Lemma str_ltb_asym (a b : string) : str_ltb a b = true -> str_ltb b a = false.
Proof.
  revert b. induction a as [|x a IH]; intros [|y b]; simpl; try discriminate; try reflexivity.
  destruct (Nat.ltb_spec (nat_of_ascii x) (nat_of_ascii y));
    destruct (Nat.ltb_spec (nat_of_ascii y) (nat_of_ascii x)); try lia; auto.
Qed.

Lemma insert_sorted_perm (x : json) (l : list json) : Permutation (insert_sorted x l) (x :: l).
Proof.
  induction l as [|y r IH]; simpl; [reflexivity|].
  destruct (str_ltb (js_to_string x) (js_to_string y)); [reflexivity|].
  rewrite IH. apply perm_swap.
Qed.

Lemma insert_sorted_sorted (x : json) (l : list json) :
  Sorted not_before l -> Sorted not_before (insert_sorted x l).
Proof.
  induction l as [|y r IH]; intros S; simpl; [constructor; constructor|].
  destruct (str_ltb (js_to_string x) (js_to_string y)) eqn:E.
  - constructor; [exact S|]. constructor. unfold not_before. now apply str_ltb_asym.
  - apply Sorted_inv in S as [S H]. constructor; [now apply IH|].
    destruct r as [|z r]; simpl.
    + constructor. exact E.
    + destruct (str_ltb (js_to_string x) (js_to_string z)); constructor; [exact E|].
      now inversion H.
Qed.

Lemma js_sort_acc (l acc : list json) :
  Sorted not_before acc ->
  Permutation (fold_left (fun acc x => insert_sorted x acc) l acc) (List.app l acc)
  /\ Sorted not_before (fold_left (fun acc x => insert_sorted x acc) l acc).
Proof.
  revert acc. induction l as [|x l IH]; intros acc S; simpl; [split; [reflexivity | exact S]|].
  destruct (IH (insert_sorted x acc)) as [P S']; [now apply insert_sorted_sorted|].
  split; [|exact S']. rewrite P. rewrite insert_sorted_perm. symmetry. apply Permutation_middle.
Qed.

Lemma js_sort_spec (l : list json) : Permutation l (js_sort l) /\ Sorted not_before (js_sort l).
Proof.
  unfold js_sort. destruct (js_sort_acc l [] (Sorted_nil _)) as [P S].
  rewrite List.app_nil_r in P. split; [now symmetry | exact S].
Qed.

(** X8: the cities list set by [fetchCities] is a permutation of the server's array, sorted by [Array.prototype.sort]'s default string order. *)
Theorem cities_of_sorted (r : fresult) (l : list json) :
  cities_of r = Normal l ->
  exists data, r = FReturn (JArr data) /\ Permutation data l
               /\ Sorted (fun x y => str_ltb (js_to_string y) (js_to_string x) = false) l.
Proof.
  unfold cities_of, awaited, as_array.
  destruct r as [[] | e | ]; try discriminate.
  intros H. injection H as <-. eexists; split; [reflexivity|]. apply js_sort_spec.
Qed.

Lemma partition_perm (vs : list jsval) :
  Permutation vs
    (List.app (map JSValue (flat_map (fun v => match v with JSValue w => [w] | JSUndefined => [] end) vs))
              (filter (fun v => match v with JSUndefined => true | _ => false end) vs)).
Proof.
  induction vs as [|[|w] vs IH]; simpl; [reflexivity| |].
  - rewrite IH at 1. apply Permutation_middle.
  - now apply perm_skip.
Qed.

(** X9: the states list set by [fetchStates] is a permutation of the [state] fields of the server's items, with the defined ones sorted by string order and the [undefined] ones last. *)
Theorem states_of_sorted (r : fresult) (vs : list jsval) :
  states_of r = Normal vs ->
  exists data vs0 d u,
    r = FReturn (JArr data)
    /\ map_c (fun item => get_prop item "state") data = Normal vs0
    /\ Permutation vs0 vs
    /\ vs = List.app (map JSValue d) u
    /\ Forall (fun x => x = JSUndefined) u
    /\ Sorted (fun x y => str_ltb (js_to_string y) (js_to_string x) = false) d.
Proof.
  unfold states_of, awaited, as_array.
  destruct r as [[] | e | ]; try discriminate.
  destruct (map_c (fun item => get_prop item "state") l) as [vs0|e] eqn:M; [|discriminate].
  intros H. injection H as <-. unfold js_sort_vals.
  set (d0 := flat_map _ vs0). set (u := filter _ vs0).
  destruct (js_sort_spec d0) as [P S].
  exists l, vs0, (js_sort d0), u. split; [reflexivity|]. split; [exact M|].
  split; [|split; [reflexivity|split; [|exact S]]].
  - rewrite (partition_perm vs0) at 1. fold d0 u.
    apply Permutation_app_tail. now apply Permutation_map.
  - unfold u. apply Forall_forall. intros x Hx. apply filter_In in Hx as [_ Hx].
    destruct x; [reflexivity | discriminate].
Qed.

Lemma states_null_throws (data : list json) :
  In JNull data -> map_c (fun item => get_prop item "state") data = Throw TypeError.
Proof.
  induction data as [|x r IH]; intros Hin; [destruct Hin|].
  simpl. destruct Hin as [-> | Hin]; [reflexivity|].
  rewrite (IH Hin). destruct x; reflexivity.
Qed.

(** X10: a states response containing [null] makes [item.state] throw: the states list is left as it was and the loading flag is cleared. *)
Theorem states_null_item_keeps_states (a : app) (rid : nat) (net : nat -> response) (data : list json) :
  find_req rid (inflight a) = Some StStates ->
  fst (fetchWithRetry net default_retries) = FReturn (JArr data) ->
  In JNull data ->
  states (step a (Settle rid net)) = states a
  /\ ld_states (isLoading (step a (Settle rid net))) = false.
Proof.
  intros F R N. simpl step. rewrite F, R. simpl finish_stage.
  unfold states_of, awaited, as_array. rewrite (states_null_throws data N).
  split; reflexivity.
Qed.

(** X11: events other than booking and cancelling never change the bookings nor the storage. *)
Theorem search_events_keep_bookings (a : app) (e : event) :
  touches_bookings e = false ->
  bookings (step a e) = bookings a /\ store (step a e) = store a.
Proof.
  destruct e as [| v | v | | rid net | b | i]; try discriminate; intros _; unfold step.
  - split; reflexivity.
  - destruct (opt_str_eqb v (selectedState a)); [split; reflexivity|].
    unfold selectedState_effect. destruct v as [s|]; cbn [selectedState set_selectedState];
      [destruct (sel_truthy (Some s))|]; split; reflexivity.
  - destruct (opt_str_eqb v (selectedCity a)); split; reflexivity.
  - destruct (_ || _ || _); [split; reflexivity|]. unfold handleSearch_start.
    destruct (selectedState a) as [s|]; [|split; reflexivity].
    destruct (selectedCity a) as [c|]; [|split; reflexivity].
    destruct (_ && _); split; reflexivity.
  - destruct (find_req rid (inflight a)) as [s|]; [|split; reflexivity].
    destruct s; simpl finish_stage;
      [destruct (states_of _) | destruct (cities_of _) | ]; split; reflexivity.
Qed.

(** X12: booking and cancelling never change the search state (states, cities, selections, results, loading flags, requests in flight). *)
Theorem booking_events_keep_search (a : app) (b : json) (i : Z) :
  search_part (step a (Book b)) = search_part a
  /\ search_part (step a (CancelBooking i)) = search_part a.
Proof.
  split; simpl step.
  - unfold handleBook. destruct (spread_append (bookings a) b); reflexivity.
  - unfold handleCancelBooking. destruct (bookings a); reflexivity.
Qed.

Lemma filter_index_below (l : list json) (j index : Z) :
  (index < j)%Z -> filter_index l j index = l.
Proof.
  revert j. induction l as [|x l IH]; intros j H; simpl; [reflexivity|].
  destruct (Z.eqb_spec j index); [lia|]. f_equal. apply IH. lia.
Qed.

Lemma filter_index_at (l : list json) (j : Z) (n : nat) :
  filter_index l j (j + Z.of_nat n)%Z = List.app (firstn n l) (skipn (S n) l).
Proof.
  revert j n. induction l as [|x l IH]; intros j n; simpl.
  - destruct n; reflexivity.
  - destruct (Z.eqb_spec j (j + Z.of_nat n)) as [E|E].
    + replace n with 0 by lia. simpl. apply filter_index_below. lia.
    + destruct n as [|n]; [lia|].
      replace (j + Z.of_nat (S n))%Z with ((j + 1) + Z.of_nat n)%Z by lia.
      rewrite IH. reflexivity.
Qed.

(** X13: [handleCancelBooking(i)] removes exactly the booking at index [i] (nothing when [i] is negative). *)
Theorem cancel_removes_index (a : app) (B : list json) (i : Z) :
  bookings a = JArr B ->
  bookings (step a (CancelBooking i))
  = JArr (if (i <? 0)%Z then B
          else List.app (firstn (Z.to_nat i) B) (skipn (S (Z.to_nat i)) B)).
Proof.
  intros H. simpl step. unfold handleCancelBooking. rewrite H. cbn [bookings set_store set_bookings].
  f_equal. destruct (Z.ltb_spec i 0).
  - apply filter_index_below. exact H0.
  - rewrite <- (filter_index_at B 0 (Z.to_nat i)). f_equal. lia.
Qed.

(** X14: cancelling at an index outside the bookings array leaves the bookings unchanged. *)
Theorem cancel_out_of_range (a : app) (B : list json) (i : Z) :
  bookings a = JArr B ->
  (i < 0 \/ Z.of_nat (length B) <= i)%Z ->
  bookings (step a (CancelBooking i)) = bookings a.
Proof.
  intros H R. simpl step. unfold handleCancelBooking. rewrite H. cbn [bookings set_store set_bookings].
  f_equal. destruct (Z.ltb_spec i 0).
  - apply filter_index_below. exact H0.
  - pose proof (filter_index_at B 0 (Z.to_nat i)) as F.
    replace (0 + Z.of_nat (Z.to_nat i))%Z with i in F by lia.
    rewrite F, firstn_all2, skipn_all2 by lia. apply List.app_nil_r.
Qed.

(** X15: after booking or cancelling, the storage holds the new bookings when the write is accepted, and is unchanged when it is rejected. *)
Theorem store_follows_bookings (a : app) (B : list json) (e : event) :
  bookings a = JArr B -> touches_bookings e = true ->
  match setItem (store a) "bookings" (stringify (bookings (step a e))) with
  | Normal _ => getBookings (store (step a e)) = Normal (bookings (step a e))
  | Throw _ => store (step a e) = store a
  end.
Proof.
  intros H T.
  assert (K : exists L, bookings (step a e) = JArr L
                        /\ store (step a e) = fst (saveBookings (store a) (JArr L))).
  { destruct e as [| | | | | b | i]; try discriminate; simpl step.
    - unfold handleBook. rewrite H. simpl spread_append. eexists. split; reflexivity.
    - unfold handleCancelBooking. rewrite H. eexists. split; reflexivity. }
  destruct K as [L [E S]]. rewrite E, S.
  unfold saveBookings. destruct (setItem (store a) "bookings" (stringify (JArr L))) as [st'|x] eqn:W;
    [|reflexivity].
  cbn [fst]. unfold getBookings. rewrite (setItem_get _ _ _ _ W).
  unfold truthy_item. rewrite stringify_nonempty. cbn [negb].
  now rewrite JSON_parse_stringify.
Qed.

(** X16: when the stored bookings are neither an array nor a string, booking and cancelling throw in the handler and leave the whole state unchanged. *)
Theorem non_iterable_bookings_frozen (a : app) (es : list event) :
  match bookings a with JArr _ | JStr _ => False | _ => True end ->
  forallb touches_bookings es = true ->
  run a es = a.
Proof.
  intros H. unfold run. induction es as [|e es IH]; intros T; [reflexivity|].
  simpl in T. apply andb_prop in T as [T1 T2]. simpl fold_left.
  assert (E : step a e = a).
  { destruct e as [| | | | | b | i]; try discriminate; simpl step.
    - unfold handleBook, spread_append. destruct (bookings a); tauto || reflexivity.
    - unfold handleCancelBooking. destruct (bookings a); tauto || reflexivity. }
  rewrite E. exact (IH T2).
Qed.










Lemma hospitals_in_flight_app (l : list (nat * stage)) (x : nat * stage) :
  hospitals_in_flight (List.app l [x])
  = hospitals_in_flight l + (if is_hospitals_stage (snd x) then 1 else 0).
Proof.
  unfold hospitals_in_flight. rewrite map_app, filter_app, length_app.
  simpl. destruct (is_hospitals_stage (snd x)); reflexivity.
Qed.

Lemma hospitals_in_flight_remove (rid : nat) (l : list (nat * stage)) (s : stage) :
  find_req rid l = Some s ->
  hospitals_in_flight (remove_req rid l) + (if is_hospitals_stage s then 1 else 0)
  = hospitals_in_flight l.
Proof.
  unfold hospitals_in_flight.
  induction l as [|[r s'] l IH]; simpl; [discriminate|].
  destruct (Nat.eqb r rid).
  - intros H. injection H as ->. simpl. destruct (is_hospitals_stage s); simpl; lia.
  - intros H. simpl. destruct (is_hospitals_stage s'); simpl; rewrite <- (IH H); lia.
Qed.

Lemma one_search_step (a : app) (e : event) : one_search_inv a -> one_search_inv (step a e).
Proof.
  unfold one_search_inv. intros H.
  destruct e as [| v | v | | rid net | b | i]; unfold step.
  - unfold fetchStates_start, start_request. cbn [inflight isLoading set_ld_states set_isLoading ld_hospitals next_req].
    rewrite hospitals_in_flight_app. simpl. lia.
  - destruct (opt_str_eqb v (selectedState a)); [exact H|].
    unfold selectedState_effect. destruct v as [s|]; cbn [selectedState set_selectedState].
    + destruct (sel_truthy (Some s)); [|exact H].
      unfold start_request. cbn [inflight isLoading set_ld_cities set_isLoading set_cities
        set_selectedCity set_searchResults ld_hospitals next_req].
      rewrite hospitals_in_flight_app. simpl. lia.
    + exact H.
  - destruct (opt_str_eqb v (selectedCity a)); exact H.
  - destruct (ld_hospitals (isLoading a)) eqn:L.
    + rewrite !orb_true_r. try rewrite L. exact H.
    + destruct (_ || _ || false); [rewrite L; exact H|]. unfold handleSearch_start.
      destruct (selectedState a) as [s|]; [|rewrite L; exact H].
      destruct (selectedCity a) as [c|]; [|rewrite L; exact H].
      destruct (_ && _); [|rewrite L; exact H].
      unfold start_request. cbn [inflight isLoading set_ld_hospitals set_isLoading set_searchResults
        ld_hospitals next_req].
      rewrite hospitals_in_flight_app, H. reflexivity.
  - destruct (find_req rid (inflight a)) as [s|] eqn:F; [|exact H].
    pose proof (hospitals_in_flight_remove rid (inflight a) s F) as R.
    destruct s; simpl finish_stage.
    + destruct (states_of _); cbn [inflight isLoading set_ld_states set_isLoading set_states
        set_inflight ld_hospitals]; simpl in R; lia.
    + destruct (cities_of _); cbn [inflight isLoading set_ld_cities set_isLoading set_cities
        set_inflight ld_hospitals]; simpl in R; lia.
    + cbn [inflight isLoading set_ld_hospitals set_isLoading set_searchResults set_inflight ld_hospitals].
      simpl in R. destruct (ld_hospitals (isLoading a)); lia.
  - unfold handleBook. destruct (spread_append (bookings a) b); exact H.
  - unfold handleCancelBooking. destruct (bookings a); exact H.
Qed.

Lemma run_one_search (st : storage) (es : list event) : one_search_inv (run (init_app st) es).
Proof.
  unfold run. assert (H : one_search_inv (init_app st)) by reflexivity.
  revert H. generalize (init_app st). induction es as [|e es IH]; intros a H; [exact H|].
  simpl. apply IH, one_search_step, H.
Qed.

(** X19: from the first render, exactly one hospitals request is in flight while [isLoading.hospitals] is set, and none otherwise. *)
Theorem one_search_in_flight (st : storage) (es : list event) :
  hospitals_in_flight (inflight (run (init_app st) es))
  = if ld_hospitals (isLoading (run (init_app st) es)) then 1 else 0.
Proof. exact (run_one_search st es). Qed.

(** X20: the "No hospitals found" message is never shown while a hospitals request is in flight. *)
Theorem no_results_hidden_while_searching (st : storage) (es : list event) (rid : nat) (s c : string) :
  In (rid, StHospitals s c) (inflight (run (init_app st) es)) ->
  shows_no_results (run (init_app st) es) = false.
Proof.
  intros Hin. pose proof (run_one_search st es) as H. unfold one_search_inv in H.
  set (a := run (init_app st) es) in *.
  assert (P : 0 < hospitals_in_flight (inflight a)).
  { unfold hospitals_in_flight. destruct (filter is_hospitals_stage (map snd (inflight a))) eqn:E;
      [|simpl; lia].
    exfalso. assert (I : In (StHospitals s c) (filter is_hospitals_stage (map snd (inflight a)))).
    { apply filter_In. split; [|reflexivity]. apply (in_map snd) in Hin. exact Hin. }
    rewrite E in I. destruct I. }
  unfold shows_no_results. destruct (ld_hospitals (isLoading a)); [|lia].
  now rewrite !andb_false_r.
Qed.

Lemma route_of_path_target (r : string) :
  ui_route r = true ->
  route_of_path (if String.eqb r "MyBookings" then "/my-bookings" else "/") = r.
Proof.
  unfold ui_route. intros H.
  destruct (String.eqb r "MyBookings") eqn:E.
  - apply String.eqb_eq in E. subst r. reflexivity.
  - destruct (String.eqb r "Home") eqn:E'; [|discriminate].
    apply String.eqb_eq in E'. subst r. reflexivity.
Qed.

Lemma nav_step_ok (n : nav) (e : nav_event) :
  nav_event_of_ui e = true -> route_ok n -> route_ok (nav_step n e).
Proof.
  unfold route_ok. intros U H. destruct e as [r| | |]; simpl.
  - symmetry. now apply route_of_path_target.
  - destruct (back_paths n); [exact H | reflexivity].
  - destruct (fwd_paths n); [exact H | reflexivity].
  - exact H.
Qed.

(** X21: through menu navigation and the browser's back and forward buttons, the route always matches the URL path, and one of the two pages is rendered. *)
Theorem route_follows_url (p : string) (es : list nav_event) :
  forallb nav_event_of_ui es = true ->
  route (fold_left nav_step es (init_nav p)) = route_of_path (path (fold_left nav_step es (init_nav p)))
  /\ rendered_page (fold_left nav_step es (init_nav p)) <> NoPageShown.
Proof.
  intros U.
  assert (H : route_ok (fold_left nav_step es (init_nav p))).
  { assert (H0 : route_ok (init_nav p)) by reflexivity. revert H0 U. generalize (init_nav p).
    induction es as [|e es IH]; intros n H0 U; [exact H0|].
    simpl in U. apply andb_prop in U as [U1 U2]. simpl. apply IH; [|exact U2].
    now apply nav_step_ok. }
  split; [exact H|]. unfold route_ok in H. unfold rendered_page. rewrite !H. unfold route_of_path.
  destruct (String.eqb _ "/my-bookings"); simpl; discriminate.
Qed.

(** X22: after [navigate(r)], the back button restores the previous path and route with the menu closed, and forward then returns to the state [navigate(r)] produced. *)
Theorem back_forward_navigate (n : nav) (r : string) :
  route n = route_of_path (path n) -> ui_route r = true ->
  nav_step (navigate n r) HistoryBack
  = mkNav (path n) (back_paths n) [path (navigate n r)] (route n) false
  /\ nav_step (nav_step (navigate n r) HistoryBack) HistoryForward = navigate n r.
Proof.
  intros H U. split.
  - simpl. unfold handlePopState. cbn. now rewrite H.
  - simpl. unfold handlePopState, navigate. cbn [path back_paths fwd_paths route mobileMenuOpen].
    f_equal. now apply route_of_path_target.
Qed.

Lemma starts_with_spec (p s : string) : starts_with p s = true <-> exists q, s = p ++ q.
Proof.
  revert s. induction p as [|c p IH]; intros s; simpl.
  - split; [intros _; now exists s | reflexivity].
  - destruct s as [|d s].
    + split; [discriminate | intros [q Q]; discriminate].
    + rewrite andb_true_iff, Ascii.eqb_eq, IH. split.
      * intros [-> [q ->]]. now exists q.
      * intros [q Q]. injection Q as -> ->. split; [reflexivity | now exists q].
Qed.

Lemma includes_spec (s t : string) : includes s t = true <-> exists p q, s = p ++ t ++ q.
Proof.
  induction s as [|c s IH]; simpl; rewrite orb_true_iff, starts_with_spec.
  - split.
    + intros [[q Q] | F]; [|discriminate]. now exists EmptyString, q.
    + intros [p [q Q]]. left. destruct p; [now exists q | discriminate].
  - rewrite IH. split.
    + intros [[q Q] | [p [q Q]]].
      * now exists EmptyString, q.
      * exists (String c p), q. now rewrite Q.
    + intros [p [q Q]]. destruct p as [|c' p].
      * left. now exists q.
      * right. injection Q as _ Q. now exists p, q.
Qed.

Lemma includes_trans (a b c : string) :
  includes a b = true -> includes b c = true -> includes a c = true.
Proof.
  rewrite !includes_spec. intros [p1 [q1 ->]] [p2 [q2 ->]].
  exists (p1 ++ p2), (q2 ++ q1). now rewrite !str_app_assoc.
Qed.

Lemma includes_empty (s : string) : includes s EmptyString = true.
Proof. destruct s; reflexivity. Qed.

(** X23: an option handed to [onSelect] by the dropdown is a string from its [options] that contains the search term, case-insensitively, and the menu closes. *)
Theorem dropdown_selection (d : dropdown) (e : dd_event) (o : jsval) :
  snd (dd_step d e) = Some o ->
  exists s p q,
    o = JSValue (JStr s) /\ In o (options d)
    /\ toLowerCase s = p ++ toLowerCase (searchTerm d) ++ q
    /\ isOpen (fst (dd_step d e)) = false.
Proof.
  destruct e as [| | | | k]; simpl; try (destruct (isOpen d)); try discriminate.
  destruct (negb (dd_isLoading d)); [|discriminate]. simpl.
  destruct (nth_error (filteredOptions (options d) (searchTerm d)) k) as [o'|] eqn:N; [|discriminate].
  intros H. injection H as ->. apply nth_error_In in N.
  unfold filteredOptions in N. apply filter_In in N as [I M].
  destruct o as [|[]]; try discriminate.
  apply includes_spec in M as [p [q M]]. exists s, p, q. auto.
Qed.

(** X24: a new [options] array resets the search term, so that every string option is listed. *)
Theorem dropdown_new_options_unfiltered (d : dropdown) (opts : list jsval) :
  filteredOptions (options (fst (dd_step d (DdOptions opts)))) (searchTerm (fst (dd_step d (DdOptions opts))))
  = filter is_string_option opts.
Proof.
  simpl. unfold filteredOptions. apply filter_ext. intros [|[]]; try reflexivity.
  apply includes_empty.
Qed.

Lemma filter_filter_impl {A : Type} (p q : A -> bool) (l : list A) :
  (forall x, p x = true -> q x = true) -> filter p (filter q l) = filter p l.
Proof.
  intros H. induction l as [|x l IH]; simpl; [reflexivity|].
  destruct (q x) eqn:Q; simpl.
  - destruct (p x); now rewrite IH.
  - destruct (p x) eqn:P; [rewrite (H x P) in Q; discriminate | exact IH].
Qed.

(** X25: filtering by a term, then by a longer term containing it, is filtering by the longer term. *)
Theorem filteredOptions_narrowing (opts : list jsval) (t t' : string) :
  includes (toLowerCase t') (toLowerCase t) = true ->
  filteredOptions (filteredOptions opts t) t' = filteredOptions opts t'.
Proof.
  intros H. unfold filteredOptions. apply filter_filter_impl.
  intros [|[]] E; try discriminate. exact (includes_trans _ _ _ E H).
Qed.

Lemma obj_get_absent (k : string) (m : list (string * json)) :
  ~ In k (map fst m) -> obj_get k m = None.
Proof.
  induction m as [|[k0 v0] m IH]; intros H; simpl; [reflexivity|].
  rewrite IH by (intros C; apply H; now right).
  destruct (String.eqb_spec k k0) as [->|E]; [exfalso; apply H; now left | reflexivity].
Qed.

Lemma obj_put_keys (k : string) (v : json) (m : list (string * json)) (x : string) :
  In x (map fst (obj_put k v m)) <-> x = k \/ In x (map fst m).
Proof.
  induction m as [|[k0 v0] m IH]; simpl; [firstorder congruence|].
  destruct (String.eqb_spec k k0) as [->|E]; simpl; [firstorder congruence|].
  rewrite IH. firstorder congruence.
Qed.

Lemma obj_put_nodup (k : string) (v : json) (m : list (string * json)) :
  NoDup (map fst m) -> NoDup (map fst (obj_put k v m)).
Proof.
  induction m as [|[k0 v0] m IH]; intros N; simpl; [constructor; [intros [] | constructor]|].
  inversion N as [|? ? N0 N1]; subst.
  destruct (String.eqb_spec k k0) as [->|E]; simpl; [now constructor|].
  constructor; [|now apply IH]. rewrite obj_put_keys. intros [C|C]; [congruence | contradiction].
Qed.

Lemma obj_get_put (k k' : string) (v : json) (m : list (string * json)) :
  NoDup (map fst m) ->
  obj_get k (obj_put k' v m) = if String.eqb k k' then Some v else obj_get k m.
Proof.
  induction m as [|[k0 v0] m IH]; intros N; simpl; [destruct (String.eqb k k'); reflexivity|].
  inversion N as [|? ? N0 N1]; subst.
  destruct (String.eqb_spec k' k0) as [->|E]; simpl.
  - destruct (String.eqb_spec k k0) as [->|E'].
    + now rewrite obj_get_absent.
    + destruct (obj_get k m); reflexivity.
  - rewrite (IH N1). destruct (String.eqb_spec k k'); [reflexivity|].
    reflexivity.
Qed.

Lemma fold_put_get (k : string) (l acc : list (string * json)) :
  NoDup (map fst acc) ->
  obj_get k (fold_left (fun o kv => obj_put (fst kv) (snd kv) o) l acc)
  = match obj_get k l with Some w => Some w | None => obj_get k acc end.
Proof.
  revert acc. induction l as [|[k0 v0] l IH]; intros acc N; simpl; [reflexivity|].
  rewrite IH by now apply obj_put_nodup. rewrite obj_get_put by exact N. cbn [fst snd].
  destruct (obj_get k l); [reflexivity|]. destruct (String.eqb k k0); reflexivity.
Qed.

Lemma spread_nodup (v : json) : NoDup (map fst (spread v)).
Proof.
  unfold spread. generalize (own_entries v). intros l.
  assert (N : NoDup (map fst (@nil (string * json)))) by constructor. revert N.
  generalize (@nil (string * json)). induction l as [|x l IH]; intros acc N; simpl; [exact N|].
  apply IH, obj_put_nodup, N.
Qed.

Lemma spread_obj (k : string) (hm : list (string * json)) : obj_get k (spread (JObj hm)) = obj_get k hm.
Proof.
  unfold spread, own_entries. rewrite fold_put_get by constructor.
  destruct (obj_get k hm); reflexivity.
Qed.

Lemma no_T_app (a b : string) : no_T (a ++ b) = no_T a && no_T b.
Proof. induction a as [|c a IH]; simpl; [reflexivity|]. unfold no_T in *. simpl. rewrite IH. apply andb_assoc. Qed.

Lemma no_T_uint (d : uint) : no_T (uint_str d) = true.
Proof. induction d; simpl; unfold no_T in *; simpl; auto. Qed.

Lemma no_T_pad (w : nat) (n : Z) : no_T (pad w n) = true.
Proof.
  unfold pad. rewrite no_T_app. apply andb_true_intro. split.
  - generalize (w - String.length (num_str n)). induction n0; [reflexivity|]. exact IHn0.
  - unfold num_str. destruct (Z.to_int n); [apply no_T_uint|]. unfold no_T. simpl. apply no_T_uint.
Qed.

Lemma split_T_0_app (s r : string) : no_T s = true -> split_T_0 (s ++ String "T" r) = s.
Proof.
  induction s as [|c s IH]; intros H; simpl; [reflexivity|].
  unfold no_T in H. simpl in H. apply andb_prop in H as [H1 H2].
  destruct (Ascii.eqb c "T"); [discriminate|]. f_equal. now apply IH.
Qed.

Lemma formatted_date (t : Z) : split_T_0 (toISOString t) = date_part t.
Proof.
  unfold toISOString. apply split_T_0_app. unfold date_part.
  destruct (civil_from_days (t / ms_per_day)) as [[y m] d].
  rewrite !no_T_app, !no_T_pad. reflexivity.
Qed.

(** X26: confirming the booking dialog with a time slot selected appends one booking, the hospital's fields with [bookingDate] (the [YYYY-MM-DD] of the selected date) and [bookingTime], and closes the dialog. *)
Theorem confirm_appends_booking (c : app) (m : modal) (hm : list (string * json))
        (B : list json) (slot : string) :
  m_hospital m = JObj hm -> bookings c = JArr B ->
  selectedTimeSlot m = Some slot -> slot <> EmptyString ->
  exists bm,
    ui_step (mkUi c (Some m)) ConfirmBooking = mkUi (step c (Book (JObj bm))) None
    /\ bookings (step c (Book (JObj bm))) = JArr (List.app B [JObj bm])
    /\ obj_get "bookingTime" bm = Some (JStr slot)
    /\ obj_get "bookingDate" bm = Some (JStr (date_part (selectedDate m)))
    /\ (forall k, k <> "bookingDate" -> k <> "bookingTime" -> obj_get k bm = obj_get k hm).
Proof.
  intros Hh Hb Hs Hne.
  assert (T : sel_truthy (Some slot) = true).
  { simpl. destruct (String.eqb_spec slot EmptyString); [contradiction | reflexivity]. }
  set (bm := obj_put "bookingTime" (JStr slot)
               (obj_put "bookingDate" (JStr (split_T_0 (toISOString (selectedDate m))))
                  (spread (m_hospital m)))).
  assert (N : NoDup (map fst (obj_put "bookingDate" (JStr (split_T_0 (toISOString (selectedDate m))))
                                (spread (m_hospital m))))) by apply obj_put_nodup, spread_nodup.
  exists bm. split; [|split; [|split; [|split]]].
  - simpl. unfold BookingModal_handleBook. rewrite Hs, T. reflexivity.
  - simpl step. unfold handleBook. rewrite Hb. reflexivity.
  - unfold bm. rewrite obj_get_put by exact N. reflexivity.
  - unfold bm. rewrite obj_get_put by exact N. simpl.
    rewrite obj_get_put by apply spread_nodup. simpl. now rewrite formatted_date.
  - intros k K1 K2. unfold bm. rewrite obj_get_put by exact N.
    destruct (String.eqb_spec k "bookingTime"); [contradiction|].
    rewrite obj_get_put by apply spread_nodup.
    destruct (String.eqb_spec k "bookingDate"); [contradiction|].
    rewrite Hh. apply spread_obj.
Qed.

Lemma modal_inv_step (u : ui) (e : ui_event) : modal_inv u -> modal_inv (ui_step u e).
Proof.
  destruct u as [c0 [m|]]; unfold modal_inv; cbn [bookingModal core]; intros H;
    destruct e as [e' | k today | k | p k | | ]; cbn [ui_step core bookingModal]; try exact H;
    try exact I.
  - destruct (nth_error (searchResults c0) k) as [h|]; exact H.
  - destruct (nth_error (m_dates m) k) as [d|] eqn:N; [|exact H]. cbn [bookingModal m_dates selectedDate selectedTimeSlot].
    destruct H as [D [_ S]]. split; [exact D|]. split; [|exact S]. now apply nth_error_In in N.
  - destruct (nth_error timeSlots p) as [[per slots]|] eqn:P; [|exact H].
    destruct (nth_error slots k) as [slot|] eqn:K; [|exact H].
    cbn [bookingModal m_dates selectedDate selectedTimeSlot].
    destruct H as [D [I' _]]. split; [exact D|]. split; [exact I'|]. right. exists slot. split; [reflexivity|].
    apply in_flat_map. exists (per, slots). split; [now apply nth_error_In in P|].
    now apply nth_error_In in K.
  - destruct (BookingModal_handleBook m); [exact I | exact H].
  - destruct (nth_error (searchResults c0) k) as [h|]; [|exact I]. cbn [bookingModal].
    split; [now exists today|]. split; [left; reflexivity | now left].
Qed.

Lemma modal_inv_run (es : list ui_event) (u : ui) :
  modal_inv u -> modal_inv (fold_left ui_step es u).
Proof.
  revert u. induction es as [|e es IH]; intros u I0; [exact I0|].
  simpl. apply IH, modal_inv_step, I0.
Qed.

(** X27: from the dialog closed, a booking made in it has one of the nine listed time slots and one of the seven dates offered from the day it was opened. *)
Theorem modal_offers_listed_choices (c : app) (es : list ui_event) (m : modal) (b : json) :
  bookingModal (fold_left ui_step es (mkUi c None)) = Some m ->
  BookingModal_handleBook m = Some b ->
  exists bm slot today,
    b = JObj bm
    /\ obj_get "bookingTime" bm = Some (JStr slot) /\ In slot (flat_map snd timeSlots)
    /\ m_dates m = booking_dates today /\ In (selectedDate m) (m_dates m).
Proof.
  intros Hm Hb.
  assert (Inv : modal_inv (fold_left ui_step es (mkUi c None))) by (apply modal_inv_run; exact I).
  unfold modal_inv in Inv. rewrite Hm in Inv. destruct Inv as [[today D] [Id S]].
  unfold BookingModal_handleBook in Hb.
  destruct (selectedTimeSlot m) as [slot|] eqn:Hs; [|discriminate].
  destruct (sel_truthy (Some slot)); [|discriminate]. injection Hb as <-.
  destruct S as [S|[s [S1 S2]]]; [discriminate|]. injection S1 as <-.
  eexists; exists slot, today. split; [reflexivity|]. split.
  - rewrite obj_get_put by apply obj_put_nodup, spread_nodup. reflexivity.
  - auto.
Qed.

(* ------------------------------------------------------------------ *)
(** ** Witnesses of the properties of the rest of [App.js] *)

Lemma getBookings_fallback_witness :
  getBookings (mkStorage [("bookings", "{")] true 100) = Normal (JArr []).
Proof.
  apply getBookings_fallback. right. right. exists "{". split; vm_compute; reflexivity.
Defined.

Lemma saveBookings_frame_witness :
  assoc_get "theme" (items (fst (saveBookings (mkStorage [("theme", "dark")] true 100) (JArr one_booking))))
  = assoc_get "theme" (items (mkStorage [("theme", "dark")] true 100))
  /\ accessible (fst (saveBookings (mkStorage [("theme", "dark")] true 100) (JArr one_booking))) = true
  /\ quota (fst (saveBookings (mkStorage [("theme", "dark")] true 100) (JArr one_booking))) = 100
  /\ snd (saveBookings (mkStorage [("theme", "dark")] true 100) (JArr one_booking)) = Normal tt.
Proof.
  apply (saveBookings_frame (mkStorage [("theme", "dark")] true 100) (JArr one_booking) "theme").
  vm_compute. discriminate.
Defined.


Lemma fetchWithRetry_first_success_witness :
  fetchWithRetry (net_ffs "[7]") 5 = (FReturn (JArr [JNum 7]), mkTrace 3 (backoffs 2)).
Proof.
  apply fetchWithRetry_first_success.
  - lia.
  - intros j Hj. exists (HttpError 503).
    destruct j as [|[|j]]; [reflexivity | reflexivity | lia].
  - vm_compute. reflexivity.
Defined.

Lemma fetchWithRetry_settles_witness :
  fst (fetchWithRetry (net_ffs "[7]") 2) <> FUndefined
  /\ 1 <= attempts (snd (fetchWithRetry (net_ffs "[7]") 2)) <= 2
  /\ delays (snd (fetchWithRetry (net_ffs "[7]") 2))
     = backoffs (attempts (snd (fetchWithRetry (net_ffs "[7]") 2)) - 1).
Proof. apply (fetchWithRetry_settles (net_ffs "[7]") 2). lia. Defined.

Lemma fetchWithRetry_total_backoff_witness :
  fold_right Z.add 0%Z (delays (snd (fetchWithRetry (fun _ => Transport NetworkError) 4)))
  = ((2 ^ Z.of_nat (attempts (snd (fetchWithRetry (fun _ => Transport NetworkError) 4)) - 1) - 1) * 1000)%Z
  /\ (fold_right Z.add 0%Z (delays (snd (fetchWithRetry (fun _ => Transport NetworkError) 4)))
      <= (2 ^ (4 - 1) - 1) * 1000)%Z.
Proof. apply fetchWithRetry_total_backoff. lia. Defined.

Lemma cities_of_sorted_witness :
  exists data, FReturn (JArr [JStr "San Diego"; JStr "Los Angeles"]) = FReturn (JArr data)
    /\ Permutation data [JStr "Los Angeles"; JStr "San Diego"]
    /\ Sorted (fun x y => str_ltb (js_to_string y) (js_to_string x) = false)
              [JStr "Los Angeles"; JStr "San Diego"].
Proof. apply cities_of_sorted. vm_compute. reflexivity. Defined.

Lemma states_of_sorted_witness :
  exists data vs0 d u,
    FReturn (JArr [JObj [("state", JStr "California")]; JObj []; JObj [("state", JStr "Alabama")]])
    = FReturn (JArr data)
    /\ map_c (fun item => get_prop item "state") data = Normal vs0
    /\ Permutation vs0 [JSValue (JStr "Alabama"); JSValue (JStr "California"); JSUndefined]
    /\ [JSValue (JStr "Alabama"); JSValue (JStr "California"); JSUndefined] = List.app (map JSValue d) u
    /\ Forall (fun x => x = JSUndefined) u
    /\ Sorted (fun x y => str_ltb (js_to_string y) (js_to_string x) = false) d.
Proof. apply states_of_sorted. vm_compute. reflexivity. Defined.

Lemma states_null_item_keeps_states_witness :
  states (step (step (init_app small_storage) Mount) (Settle 0 (fun _ => Resp true 200 "[null]")))
  = states (step (init_app small_storage) Mount)
  /\ ld_states (isLoading (step (step (init_app small_storage) Mount)
                                (Settle 0 (fun _ => Resp true 200 "[null]")))) = false.
Proof.
  apply (states_null_item_keeps_states _ _ _ [JNull]).
  - vm_compute. reflexivity.
  - vm_compute. reflexivity.
  - simpl. left. reflexivity.
Defined.

Lemma search_events_keep_bookings_witness :
  bookings (step city_change_run ClickSearch) = bookings city_change_run
  /\ store (step city_change_run ClickSearch) = store city_change_run.
Proof. apply search_events_keep_bookings. reflexivity. Defined.

Lemma cancel_removes_index_witness :
  bookings (step (step (init_app small_storage) (Book (JObj rated_zero))) (CancelBooking 0))
  = JArr (if (0 <? 0)%Z then [JObj rated_zero]
          else List.app (firstn (Z.to_nat 0) [JObj rated_zero]) (skipn (S (Z.to_nat 0)) [JObj rated_zero])).
Proof. apply cancel_removes_index. vm_compute. reflexivity. Defined.

Lemma cancel_out_of_range_witness :
  bookings (step (step (init_app small_storage) (Book (JObj rated_zero))) (CancelBooking 5))
  = bookings (step (init_app small_storage) (Book (JObj rated_zero))).
Proof.
  apply (cancel_out_of_range _ [JObj rated_zero]).
  - vm_compute. reflexivity.
  - right. simpl. lia.
Defined.

Lemma store_follows_bookings_witness :
  match setItem (store (init_app small_storage)) "bookings"
          (stringify (bookings (step (init_app small_storage) (Book (JObj rated_zero))))) with
  | Normal _ => getBookings (store (step (init_app small_storage) (Book (JObj rated_zero))))
                = Normal (bookings (step (init_app small_storage) (Book (JObj rated_zero))))
  | Throw _ => store (step (init_app small_storage) (Book (JObj rated_zero))) = store (init_app small_storage)
  end.
Proof. apply (store_follows_bookings _ []); vm_compute; reflexivity. Defined.

Lemma non_iterable_bookings_frozen_witness :
  run (init_app (mkStorage [("bookings", "5")] true 100)) [Book (JObj rated_zero); CancelBooking 0]
  = init_app (mkStorage [("bookings", "5")] true 100).
Proof.
  apply non_iterable_bookings_frozen.
  - vm_compute. exact I.
  - reflexivity.
Defined.

Lemma no_results_hidden_while_searching_witness :
  shows_no_results (run (init_app small_storage)
    [Mount; Settle 0 states_net; SelectState (Some "California"); Settle 1 cities_net;
     SelectCity (Some "Los Angeles"); ClickSearch]) = false.
Proof.
  apply (no_results_hidden_while_searching _ _ 2 "California" "Los Angeles").
  vm_compute. left. reflexivity.
Defined.

Lemma route_follows_url_witness :
  route (fold_left nav_step [NavTo "Home"; HistoryBack; ToggleMenu; HistoryForward] (init_nav "/my-bookings"))
  = route_of_path (path (fold_left nav_step [NavTo "Home"; HistoryBack; ToggleMenu; HistoryForward]
                                   (init_nav "/my-bookings")))
  /\ rendered_page (fold_left nav_step [NavTo "Home"; HistoryBack; ToggleMenu; HistoryForward]
                              (init_nav "/my-bookings")) <> NoPageShown.
Proof. apply route_follows_url. reflexivity. Defined.

Lemma back_forward_navigate_witness :
  nav_step (navigate (init_nav "/") "MyBookings") HistoryBack
  = mkNav "/" [] ["/my-bookings"] "Home" false
  /\ nav_step (nav_step (navigate (init_nav "/") "MyBookings") HistoryBack) HistoryForward
     = navigate (init_nav "/") "MyBookings".
Proof. apply (back_forward_navigate (init_nav "/") "MyBookings"); reflexivity. Defined.

Lemma dropdown_selection_witness :
  exists s p q,
    JSValue (JStr "California") = JSValue (JStr s)
    /\ In (JSValue (JStr "California"))
          (options (mkDropdown true "CAL" [JSValue (JStr "Alabama"); JSValue (JStr "California")] false))
    /\ toLowerCase s = p ++ toLowerCase "CAL" ++ q
    /\ isOpen (fst (dd_step (mkDropdown true "CAL" [JSValue (JStr "Alabama"); JSValue (JStr "California")] false)
                            (DdClickOption 0))) = false.
Proof. apply dropdown_selection. vm_compute. reflexivity. Defined.

Lemma filteredOptions_narrowing_witness :
  filteredOptions (filteredOptions [JSValue (JStr "California"); JSValue (JStr "Alabama"); JSValue JNull] "al") "CAL"
  = filteredOptions [JSValue (JStr "California"); JSValue (JStr "Alabama"); JSValue JNull] "CAL".
Proof. apply filteredOptions_narrowing. vm_compute. reflexivity. Defined.

Lemma confirm_appends_booking_witness :
  exists bm,
    ui_step (mkUi (init_app small_storage) (Some picked_modal)) ConfirmBooking
    = mkUi (step (init_app small_storage) (Book (JObj bm))) None
    /\ bookings (step (init_app small_storage) (Book (JObj bm))) = JArr (List.app [] [JObj bm])
    /\ obj_get "bookingTime" bm = Some (JStr "02:00 PM")
    /\ obj_get "bookingDate" bm = Some (JStr (date_part (selectedDate picked_modal)))
    /\ (forall k, k <> "bookingDate" -> k <> "bookingTime" -> obj_get k bm = obj_get k cedars).
Proof.
  apply confirm_appends_booking.
  - reflexivity.
  - vm_compute. reflexivity.
  - reflexivity.
  - discriminate.
Defined.

Lemma modal_offers_listed_choices_witness :
  exists bm slot today,
    JObj (List.app cedars [("bookingDate", JStr "2024-05-03"); ("bookingTime", JStr "02:00 PM")]) = JObj bm
    /\ obj_get "bookingTime" bm = Some (JStr slot) /\ In slot (flat_map snd timeSlots)
    /\ m_dates picked_modal = booking_dates today /\ In (selectedDate picked_modal) (m_dates picked_modal).
Proof.
  apply (modal_offers_listed_choices city_change_run ui_run).
  - vm_compute. reflexivity.
  - vm_compute. reflexivity.
Defined.
